(** * check_apt: the apt update probe of the monitoring plugins

    A shallow embedding of [plugins/check_apt.c]: the two subprocess steps
    [run_update] and [run_upgrade], and the part of [main] that sequences
    them and folds their results into the plugin's state.

    The C globals become the fields of a [machine] record threaded through a
    small state monad; everything the program does to the outside world
    (arming the alarm, spawning a command, writing to stdout or stderr) is
    appended to the machine's [trace], oldest event first.  What the spawned
    commands answer is an input of the model: a [world].  What the option
    parser prints on its help and version paths, before any of this, is
    held in how [process_arguments] ends.

    [max_state] lives in utils.c, outside the sources at hand.  The program
    is therefore embedded over an arbitrary [max_state]; what holds of it
    whatever [max_state] does is proved in that generality, and the rest is
    proved of the program linked with [spec_max_state], the operation the
    specification describes. *)

From Stdlib Require Import ZArith NArith List String Ascii Bool Lia.
Import ListNotations.
Local Open Scope string_scope.
Local Open Scope Z_scope.

(** ** Declarations of common.h, utils.h and runcmd.h *)

(** Modelled from the spec: the STATE_* macros of common.h, which is not
    part of the sources.  The spec fixes their ordinals:
    OK(0) < WARNING(1) < CRITICAL(2) < UNKNOWN(3). *)
Definition STATE_OK : Z := 0.
Definition STATE_WARNING : Z := 1.
Definition STATE_CRITICAL : Z := 2.
Definition STATE_UNKNOWN : Z := 3.

(** Modelled from the spec: [max_state] of utils.c, of which only the call
    sites are in the sources.  The spec's contract for the combining
    operation: the greater of the two under the order of the ordinals. *)
Definition spec_max_state (a b : Z) : Z := if a <? b then b else a.

(** Modelled from the spec: [struct output] of runcmd.h, one captured
    stream: its raw byte length ([size_t buflen]) and its lines in order
    ([line], with [lines] their number). *)
Record output : Type := mk_output {
  buflen : N;
  line : list string
}.

Definition lines (o : output) : nat := List.length (line o).

(** What one call of [np_runcmd] hands back: the [int] it returns, which
    the program reads as the child's exit status, and the two captures it
    fills in. *)
Record proc : Type := mk_proc {
  status : Z;
  chld_out : output;
  chld_err : output
}.

(** The answer of the [k]-th spawned command (counting from 0) when it is
    asked to run the command line [cmd]. *)
Definition world : Type := nat -> string -> proc.

(** ** The command lines *)

Definition APTGET_UPGRADE : string :=
  "/usr/bin/apt-get -o 'Debug::NoLocking=true' -s -qq upgrade".
Definition APTGET_DISTUPGRADE : string :=
  "/usr/bin/apt-get -o 'Debug::NoLocking=true' -s -qq dist-upgrade".
Definition APTGET_UPDATE : string :=
  "/usr/bin/apt-get -q update".

(** ** C strings *)

Definition nl : string := String (ascii_of_nat 10) EmptyString.

(** A character as [unsigned char]. *)
Definition uchar (c : ascii) : Z := Z.of_N (N_of_ascii c).

(** The byte a [char *] points at: the terminating NUL once the string is
    exhausted. *)
Definition head_byte (s : string) : Z :=
  match s with
  | EmptyString => 0
  | String c _ => uchar c
  end.

Definition advance (s : string) : string :=
  match s with
  | EmptyString => EmptyString
  | String _ s' => s'
  end.

(** [strncmp] of the C library: at most [n] bytes are compared, and the
    comparison stops at the first difference or at a NUL. *)
Fixpoint strncmp (s1 s2 : string) (n : nat) : Z :=
  match n with
  | O => 0
  | S n' =>
      let c1 := head_byte s1 in
      let c2 := head_byte s2 in
      if c1 =? c2
      then if c1 =? 0 then 0 else strncmp (advance s1) (advance s2) n'
      else c1 - c2
  end.

(** ** Events and the machine *)

Inductive event : Type :=
| Alarm (seconds : Z)                      (* alarm(timeout_interval) *)
| Runcmd (cmd : string)                    (* np_runcmd(cmd, ...) *)
| Echo (l : string)                        (* printf("%s\n", l) *)
| Diag (text : string)                     (* fprintf(stderr, text) *)
| Report (result packages : Z) (dist warnings errors : bool).
                                           (* the closing printf of main *)

(** The file-scope variables of check_apt.c, [timeout_interval] of utils,
    and the trace of what has been done so far. *)
Record machine : Type := mk_machine {
  verbose : Z;
  do_update : Z;
  dist_upgrade : Z;
  stderr_warning : Z;
  exec_warning : Z;
  timeout_interval : Z;
  trace : list event
}.

(** The machine when [process_arguments] has returned: the warning flags
    still hold their initialiser 0 and nothing has happened yet. *)
Definition boot (v du dd t : Z) : machine :=
  mk_machine v du dd 0 0 t [].

Definition M (A : Type) : Type := machine -> A * machine.

Definition ret {A : Type} (a : A) : M A := fun m => (a, m).

Definition bind {A B : Type} (c : M A) (k : A -> M B) : M B :=
  fun m => let (a, m') := c m in k a m'.

Declare Scope prog_scope.
Delimit Scope prog_scope with prog.
Notation "x <- c ;; k" := (bind c (fun x => k))
  (at level 61, c at next level, right associativity) : prog_scope.
Notation "' pat <- c ;; k" := (bind c (fun v => match v with pat => k end))
  (at level 61, pat pattern, c at next level, right associativity) : prog_scope.
Notation "c ;; k" := (bind c (fun _ => k))
  (at level 61, right associativity) : prog_scope.
Local Open Scope prog_scope.

Definition gets {A : Type} (f : machine -> A) : M A := fun m => (f m, m).

Definition emit (e : event) : M unit :=
  fun m => (tt, mk_machine (verbose m) (do_update m) (dist_upgrade m)
                           (stderr_warning m) (exec_warning m)
                           (timeout_interval m) (trace m ++ [e])).

Definition set_stderr_warning (x : Z) : M unit :=
  fun m => (tt, mk_machine (verbose m) (do_update m) (dist_upgrade m)
                           x (exec_warning m)
                           (timeout_interval m) (trace m)).

Definition set_exec_warning (x : Z) : M unit :=
  fun m => (tt, mk_machine (verbose m) (do_update m) (dist_upgrade m)
                           (stderr_warning m) x
                           (timeout_interval m) (trace m)).

(** [if (x) body] for a statement body. *)
Definition when (x : Z) (body : M unit) : M unit :=
  if x =? 0 then ret tt else body.

Definition is_run (e : event) : bool :=
  match e with Runcmd _ => true | _ => false end.

(** How many commands have been spawned so far. *)
Definition spawned (tr : list event) : nat := List.length (filter is_run tr).

(** [np_runcmd(cmd, &chld_out, &chld_err, 0)] of runcmd.c, which is not in
    the sources: what it hands back is asked of the [world].  The call
    blocks until the child is gone, so the whole answer is there when it
    returns, and the next event of the trace comes after it. *)
Definition np_runcmd (w : world) (cmd : string) : M proc :=
  fun m => let (_, m') := emit (Runcmd cmd) m in (w (spawned (trace m)) cmd, m').

(** ** The program *)

(** [for (i = 0; i < o.lines; i++) printf("%s\n", o.line[i]);] *)
Fixpoint echo_lines (ls : list string) : M unit :=
  match ls with
  | [] => ret tt
  | l :: ls' => emit (Echo l) ;; echo_lines ls'
  end.

(** The filter loop of [run_upgrade], lines 197-204, from line [i] on with
    the counter at [pc].  The counter never exceeds the number of lines,
    which the [int] index [i] ranges over, so [pc++] cannot wrap. *)
Fixpoint scan_inst (ls : list string) (pc : Z) : M Z :=
  match ls with
  | [] => ret pc
  | l :: ls' =>
      if strncmp l "Inst" 4 =? 0
      then v <- gets verbose ;;
           when v (emit (Echo l)) ;;
           scan_inst ls' (pc + 1)
      else scan_inst ls' pc
  end.

Definition truthy (x : Z) : bool := negb (x =? 0).

Section Program.

(** [max_state] of utils.c, whatever it does. *)
Variable max_state : Z -> Z -> Z.

(** [int run_upgrade(int *pkgcount)]: the pair is the returned state and
    the value stored through [pkgcount]. *)
Definition run_upgrade (w : world) : M (Z * Z) :=
  d <- gets dist_upgrade ;;
  r <- (if d =? 0 then np_runcmd w APTGET_UPGRADE
        else np_runcmd w APTGET_DISTUPGRADE) ;;
  result <- (if status r =? 0 then ret (status r)
             else
               set_exec_warning 1 ;;
               emit (Diag ("'" ++ APTGET_UPGRADE
                               ++ "' exited with non-zero status." ++ nl
                               ++ "Run again with -v for more info." ++ nl)) ;;
               ret STATE_UNKNOWN) ;;
  pc <- scan_inst (line (chld_out r)) 0 ;;
  result <- (if (buflen (chld_err r) =? 0)%N then ret result
             else
               set_stderr_warning 1 ;;
               let result := max_state result STATE_WARNING in
               v <- gets verbose ;;
               when v (echo_lines (line (chld_err r))) ;;
               ret result) ;;
  ret (result, pc).

(** [int run_update(void)]. *)
Definition run_update (w : world) : M Z :=
  r <- np_runcmd w APTGET_UPDATE ;;
  result <- (if status r =? 0 then ret (status r)
             else
               set_exec_warning 1 ;;
               emit (Diag ("'" ++ APTGET_UPDATE
                               ++ "' exited with non-zero status." ++ nl)) ;;
               ret STATE_UNKNOWN) ;;
  v <- gets verbose ;;
  when v (echo_lines (line (chld_out r))) ;;
  result <- (if (buflen (chld_err r) =? 0)%N then ret result
             else
               set_stderr_warning 1 ;;
               let result := max_state result STATE_WARNING in
               v <- gets verbose ;;
               when v (echo_lines (line (chld_err r))) ;;
               ret result) ;;
  ret result.

(** [int main(int argc, char **argv)] from line 63 on: argument parsing and
    the installation of the SIGALRM handler are behind it.  The closing
    [printf] is kept as a [Report] event holding its arguments ([state_text]
    of utils.c is not in the sources). *)
Definition main (w : world) : M Z :=
  t <- gets timeout_interval ;;
  emit (Alarm t) ;;
  du <- gets do_update ;;
  result <- (if du =? 0 then ret STATE_UNKNOWN else run_update w) ;;
  '(r, packages_available) <- run_upgrade w ;;
  let result := max_state result r in
  sw <- gets stderr_warning ;;
  when sw (emit (Diag "warning, output detected on stderr. ") ;;
           emit (Diag ("re-run with -v for more information." ++ nl))) ;;
  let result := if packages_available >? 0
                then max_state result STATE_WARNING
                else max_state result STATE_OK in
  dd <- gets dist_upgrade ;;
  sw <- gets stderr_warning ;;
  ew <- gets exec_warning ;;
  emit (Report result packages_available (truthy dd) (truthy sw) (truthy ew)) ;;
  ret result.

(** ** What a run hands to the reporting layer *)

Record RunVerdict : Type := mk_verdict {
  severity : Z;
  updateCount : Z;
  stderrWarning : bool;
  execWarning : bool
}.

(** The verdict a finished run has produced: the arguments of the status
    line, which is the last thing [main] does. *)
Definition verdict_of (tr : list event) : option RunVerdict :=
  match rev tr with
  | Report result packages _ warnings errors :: _ =>
      Some (mk_verdict result packages warnings errors)
  | _ => None
  end.

(** The verdict of the run that [main] makes from machine [m]. *)
Definition run (w : world) (m : machine) : option RunVerdict :=
  verdict_of (trace (snd (main w m))).

(** The command lines spawned along a trace, in order. *)
Fixpoint commands (tr : list event) : list string :=
  match tr with
  | [] => []
  | Runcmd cmd :: tr' => cmd :: commands tr'
  | _ :: tr' => commands tr'
  end.

Definition is_echo (e : event) : bool :=
  match e with Echo _ => true | _ => false end.

(** A trace without the lines echoed for the verbose log. *)
Definition quiet (tr : list event) : list event :=
  filter (fun e => negb (is_echo e)) tr.

Definition is_alarm (e : event) : bool :=
  match e with Alarm _ => true | _ => false end.

(** ** The specification's reading of the filter *)

(** The first four characters of [l] are exactly [Inst]. *)
Definition marker (l : string) : bool := String.eqb (substring 0 4 l) "Inst".

Definition count_marked (ls : list string) : Z :=
  Z.of_nat (List.length (filter marker ls)).

Fixpoint no_nul (p : string) : bool :=
  match p with
  | EmptyString => true
  | String a p' => negb (uchar a =? 0) && no_nul p'
  end.

(** ** Closed forms of the steps *)

Definition is_inst (l : string) : bool := strncmp l "Inst" 4 =? 0.

Definition push (evs : list event) (m : machine) : machine :=
  mk_machine (verbose m) (do_update m) (dist_upgrade m)
             (stderr_warning m) (exec_warning m)
             (timeout_interval m) (trace m ++ evs).

(** The state an invocation that answered [r] returns. *)
Definition exec_state (r : proc) : Z :=
  if status r =? 0 then status r else STATE_UNKNOWN.

Definition step_state (r : proc) : Z :=
  if (buflen (chld_err r) =? 0)%N then exec_state r
  else max_state (exec_state r) STATE_WARNING.

Definition echoed (v : Z) (ls : list string) : list event :=
  if v =? 0 then [] else map Echo ls.

Definition err_events (v : Z) (r : proc) : list event :=
  if (buflen (chld_err r) =? 0)%N then [] else echoed v (line (chld_err r)).

Definition update_events (v : Z) (r : proc) : list event :=
  [Runcmd APTGET_UPDATE]
  ++ (if status r =? 0 then []
      else [Diag ("'" ++ APTGET_UPDATE
                      ++ "' exited with non-zero status." ++ nl)])
  ++ echoed v (line (chld_out r))
  ++ err_events v r.

Definition upgrade_cmd (dd : Z) : string :=
  if dd =? 0 then APTGET_UPGRADE else APTGET_DISTUPGRADE.

Definition upgrade_events (v dd : Z) (r : proc) : list event :=
  [Runcmd (upgrade_cmd dd)]
  ++ (if status r =? 0 then []
      else [Diag ("'" ++ APTGET_UPGRADE
                      ++ "' exited with non-zero status." ++ nl
                      ++ "Run again with -v for more info." ++ nl)])
  ++ echoed v (filter is_inst (line (chld_out r)))
  ++ err_events v r.

(** The machine once an invocation that answered [r] and did [evs] is over. *)
Definition after_step (r : proc) (evs : list event) (m : machine) : machine :=
  mk_machine (verbose m) (do_update m) (dist_upgrade m)
             (if (buflen (chld_err r) =? 0)%N then stderr_warning m else 1)
             (if status r =? 0 then exec_warning m else 1)
             (timeout_interval m) (trace m ++ evs).

(** The fold of lines 69-80: the state before the upgrade step, the state
    the upgrade step returned and the number of packages it found. *)
Definition final_state (result0 r packages : Z) : Z :=
  let result := max_state result0 r in
  if packages >? 0 then max_state result STATE_WARNING
  else max_state result STATE_OK.

Definition stderr_notice (sw : Z) : list event :=
  if sw =? 0 then []
  else [Diag "warning, output detected on stderr. ";
        Diag ("re-run with -v for more information." ++ nl)].

(** The machine in which the upgrade step of [main] starts. *)
Definition before_upgrade (w : world) (m : machine) : machine :=
  let m0 := push [Alarm (timeout_interval m)] m in
  let upd := w (spawned (trace m)) APTGET_UPDATE in
  if do_update m =? 0 then m0
  else after_step upd (update_events (verbose m) upd) m0.

(** The answer the update step of [main] gets, when there is one. *)
Definition update_answer (w : world) (m : machine) : proc :=
  w (spawned (trace m)) APTGET_UPDATE.

(** The answer the upgrade step of [main] gets. *)
Definition upgrade_answer (w : world) (m : machine) : proc :=
  w (if do_update m =? 0 then spawned (trace m) else S (spawned (trace m)))
    (upgrade_cmd (dist_upgrade m)).

(** ** Sample answers *)

(** Every command exits 0 and writes nothing. *)
Definition silent_world : world :=
  fun _ _ => mk_proc 0 (mk_output 0 []) (mk_output 0 []).

(** The first command is clean and the second exits 100. *)
Definition failing_world : world :=
  fun k cmd =>
    if (k =? 1)%nat
    then mk_proc 100 (mk_output 0 []) (mk_output 0 [])
    else mk_proc 0 (mk_output 0 []) (mk_output 0 []).

(** Every command exits 1 and writes nothing. *)
Definition broken_world : world :=
  fun _ _ => mk_proc 1 (mk_output 0 []) (mk_output 0 []).

Definition sample_stdout : list string :=
  ["Inst foo 1.0"; "Conf foo"; "Inst bar 2.0"; ""].

(** Every command exits 0 with [sample_stdout] (36 bytes with the
    newlines) on stdout and nothing on stderr. *)
Definition sample_world : world :=
  fun _ _ => mk_proc 0 (mk_output 36 sample_stdout) (mk_output 0 []).

(** A capture of one empty line: a single newline byte. *)
Definition blank_line : output := mk_output 1 [""].

(** ** The command line *)

(** [atoi] of the C library, whatever it makes of a string. *)
Variable atoi : string -> Z.

(** [OK] and [ERROR] of common.h, which is not part of the sources. *)
Variables OK ERROR : Z.

(** [EOF] of stdio.h. *)
Definition EOF : Z := -1.

(** The bounds of an [int], and an [int] after an operation that left its
    range: the value wraps around. *)
Definition INT_MAX : Z := 2147483647.
Definition INT_MIN : Z := -2147483648.

Definition int_wrap (x : Z) : Z :=
  (x + 2147483648) mod 4294967296 - 2147483648.

(** [progname], [revision], [copyright] and [email], lines 25-28. *)
Definition progname : string := "check_apt".
Definition revision : string := "$Revision$".
Definition copyright : string := "2006".
Definition email : string := "nagiosplug-devel@lists.sourceforge.net".

(** The format strings [COPYRIGHT], [UT_HELP_VRSN] and [UT_TIMEOUT] of
    utils.h, which is not part of the sources. *)
Variables COPYRIGHT UT_HELP_VRSN UT_TIMEOUT : string.

Inductive printf_arg : Type :=
| Arg_string (s : string)
| Arg_int (n : Z).

(** What the help and version paths write to stdout: a call of [printf]
    with its format and arguments, or a call of [print_revision] of
    utils.c.  The texts are as written in the source, before the message
    catalogue that the macro [_] looks them up in. *)
Inductive printed : Type :=
| Printf (fmt : string) (args : list printf_arg)
| Print_revision (name rev : string).

(** [void print_usage(void)]. *)
Definition print_usage : list printed :=
  [Printf ("Usage: %s [-du] [-t timeout]" ++ nl) [Arg_string progname]].

(** [void print_help(void)]: it reads [timeout_interval] for the text of
    the timeout option. *)
Definition print_help : M (list printed) :=
  t <- gets timeout_interval ;;
  ret ([Print_revision progname revision;
        Printf COPYRIGHT [Arg_string copyright; Arg_string email];
        Printf ("This plugin checks for software updates on systems that use"
                  ++ nl
                  ++ "package management systems based on the apt-get(8) command"
                  ++ nl ++ "found in Debian GNU/Linux" ++ nl ++ nl ++ nl) []]
       ++ print_usage
       ++ [Printf UT_HELP_VRSN [];
           Printf UT_TIMEOUT [Arg_int t];
           Printf (nl ++ " -d, --dist-upgrade" ++ nl
                      ++ "   Perform a dist-upgrade instead of normal upgrade."
                      ++ nl ++ nl
                      ++ "The following options require root privileges and should be used with care: "
                      ++ nl ++ nl) [];
           Printf (" -u, --update" ++ nl
                      ++ "   First perform an 'apt-get update' (note: you may also need to use -t)"
                      ++ nl ++ nl) []])%list.

(** What one call of [getopt_long] leaves behind: the [int] it returns and
    [optarg], [None] for a null pointer. *)
Definition getopt_result : Type := (Z * option string)%type.

(** How [process_arguments] ends: it returns, it leaves through [exit]
    after [print_help] or after [print_revision], with what these wrote to
    stdout, or it calls [usage_va] of utils.c, where the embedding stops;
    [Atoi_null] stands for the call [atoi(NULL)], which the C library leaves
    undefined.  The trace of the machine is kept for the run of [main]: the
    text of the help and version paths is held here. *)
Inductive parse_end : Type :=
| Returned (r : Z)
| Help_exit (out : list printed) (code : Z)
| Version_exit (out : list printed) (code : Z)
| Usage_va (fmt : string) (arg : option string)
| Atoi_null.

(** What [process_arguments] wrote to stdout by the time it ends. *)
Definition printed_by (e : parse_end) : list printed :=
  match e with
  | Help_exit out _ => out
  | Version_exit out _ => out
  | _ => []
  end.

Definition set_verbose (x : Z) : M unit :=
  fun m => (tt, mk_machine x (do_update m) (dist_upgrade m)
                           (stderr_warning m) (exec_warning m)
                           (timeout_interval m) (trace m)).

Definition set_do_update (x : Z) : M unit :=
  fun m => (tt, mk_machine (verbose m) x (dist_upgrade m)
                           (stderr_warning m) (exec_warning m)
                           (timeout_interval m) (trace m)).

Definition set_dist_upgrade (x : Z) : M unit :=
  fun m => (tt, mk_machine (verbose m) (do_update m) x
                           (stderr_warning m) (exec_warning m)
                           (timeout_interval m) (trace m)).

Definition set_timeout_interval (x : Z) : M unit :=
  fun m => (tt, mk_machine (verbose m) (do_update m) (dist_upgrade m)
                           (stderr_warning m) (exec_warning m)
                           x (trace m)).

(** [int process_arguments(int argc, char **argv)], over what the
    successive calls of [getopt_long] give; once the list is through,
    [getopt_long] has no option left and returns -1.  [verbose] is an
    [int]: [verbose++] at INT_MAX wraps around to INT_MIN. *)
Fixpoint process_arguments (rs : list getopt_result) : M parse_end :=
  match rs with
  | [] => ret (Returned OK)
  | (c, optarg) :: rs' =>
      if (c =? -1) || (c =? EOF) || (c =? 1) then ret (Returned OK)
      else if c =? uchar "h" then
        out <- print_help ;; ret (Help_exit out STATE_OK)
      else if c =? uchar "V" then
        ret (Version_exit [Print_revision progname revision] STATE_OK)
      else if c =? uchar "v" then
        v <- gets verbose ;;
        set_verbose (int_wrap (v + 1)) ;;
        process_arguments rs'
      else if c =? uchar "t" then
        match optarg with
        | Some s => set_timeout_interval (atoi s) ;; process_arguments rs'
        | None => ret Atoi_null
        end
      else if c =? uchar "d" then
        set_dist_upgrade 1 ;; process_arguments rs'
      else if c =? uchar "u" then
        set_do_update 1 ;; process_arguments rs'
      else ret (Usage_va "Unknown argument - %s" optarg)
  end.

(** How the program ends: with an exit status, in [usage_va], or in the
    undefined [atoi(NULL)].  What the help and version paths print is in
    how [process_arguments] ends. *)
Inductive ending : Type :=
| Finished (code : Z)
| Usage (fmt : string) (arg : option string)
| Undefined.

(** [int main(int argc, char **argv)] from its first line: the options are
    parsed, the SIGALRM handler is installed ([sig_err] says that [signal]
    returned SIG_ERR), and the run of [main] above follows. *)
Definition program (rs : list getopt_result) (sig_err : bool) (w : world)
  : M ending :=
  p <- process_arguments rs ;;
  match p with
  | Returned r =>
      if r =? ERROR then ret (Usage "Could not parse arguments" None)
      else if sig_err then ret (Usage "Cannot catch SIGALRM" None)
      else result <- main w ;; ret (Finished result)
  | Help_exit _ code => ret (Finished code)
  | Version_exit _ code => ret (Finished code)
  | Usage_va fmt arg => ret (Usage fmt arg)
  | Atoi_null => ret Undefined
  end.

(** The machine when the program starts: the initialisers of the file-scope
    variables, and [timeout_interval] as utils leaves it. *)
Definition start (t : Z) : machine := boot 0 0 0 t.

(** *** Reading the list of options *)

(** The results that set something and let the loop go on. *)
Definition settable (r : getopt_result) : bool :=
  let c := fst r in
  (c =? uchar "v") || (c =? uchar "d") || (c =? uchar "u")
  || ((c =? uchar "t") && match snd r with Some _ => true | None => false end).

(** The results the loop goes through before it ends. *)
Fixpoint processed (rs : list getopt_result) : list getopt_result :=
  match rs with
  | [] => []
  | r :: rs' => if settable r then r :: processed rs' else []
  end.

(** The result at which the loop ends, if it is not the end of the list. *)
Fixpoint stop_of (rs : list getopt_result) : option getopt_result :=
  match rs with
  | [] => None
  | r :: rs' => if settable r then stop_of rs' else Some r
  end.

Definition has (c : ascii) (rs : list getopt_result) : bool :=
  existsb (fun r => fst r =? uchar c) rs.

Definition count_of (c : ascii) (rs : list getopt_result) : Z :=
  Z.of_nat (List.length (filter (fun r => fst r =? uchar c) rs)).

(** The argument of the last [t] among [rs]. *)
Fixpoint last_timeout (rs : list getopt_result) : option string :=
  match rs with
  | [] => None
  | (c, a) :: rs' =>
      match last_timeout rs' with
      | Some s => Some s
      | None => if c =? uchar "t" then a else None
      end
  end.

(** How the loop ends at [stop], in the machine [m] it has reached. *)
Definition end_at (stop : option getopt_result) (m : machine) : parse_end :=
  match stop with
  | None => Returned OK
  | Some (c, a) =>
      if (c =? -1) || (c =? 1) then Returned OK
      else if c =? uchar "h" then Help_exit (fst (print_help m)) STATE_OK
      else if c =? uchar "V"
           then Version_exit [Print_revision progname revision] STATE_OK
      else if c =? uchar "t" then Atoi_null
      else Usage_va "Unknown argument - %s" a
  end.

(** [verbose] after [n] times [verbose++] from [v]. *)
Definition counted (v n : Z) : Z := if n =? 0 then v else int_wrap (v + n).

(** *** Reading the trace *)

(** What a run wrote with [fprintf(stderr, ...)], in order. *)
Fixpoint diagnostics (tr : list event) : list string :=
  match tr with
  | [] => []
  | Diag text :: tr' => text :: diagnostics tr'
  | _ :: tr' => diagnostics tr'
  end.

(** The captured lines a run echoed, in order. *)
Fixpoint echoes (tr : list event) : list string :=
  match tr with
  | [] => []
  | Echo l :: tr' => l :: echoes tr'
  | _ :: tr' => echoes tr'
  end.

Definition is_report (e : event) : bool :=
  match e with Report _ _ _ _ _ => true | _ => false end.

Definition update_failure : string :=
  "'" ++ APTGET_UPDATE ++ "' exited with non-zero status." ++ nl.

Definition upgrade_failure : string :=
  "'" ++ APTGET_UPGRADE ++ "' exited with non-zero status." ++ nl
      ++ "Run again with -v for more info." ++ nl.

Definition stderr_notice_text : list string :=
  ["warning, output detected on stderr. ";
   "re-run with -v for more information." ++ nl].

(** The lines of a stderr capture that has any byte. *)
Definition err_lines (r : proc) : list string :=
  if (buflen (chld_err r) =? 0)%N then [] else line (chld_err r).

(** Two answers in which the steps see the same: whether the status is 0
    and whether stderr has any byte. *)
Definition same_signal (r r' : proc) : Prop :=
  (status r =? 0) = (status r' =? 0)
  /\ (buflen (chld_err r) =? 0)%N = (buflen (chld_err r') =? 0)%N.

(** The second sentence of the claim about verbosity, read on a trace: a
    line that is echoed is a marked line or a stderr line of one of the two
    commands. *)
Definition echoes_marked_or_stderr
           (tr : list event) (upd upg : proc) : Prop :=
  forall l, In l (echoes tr) ->
            marker l = true
            \/ In l (line (chld_err upd)) \/ In l (line (chld_err upg)).

(** The lines a run echoes under [verbose]: all stdout lines of the update
    command, the marked stdout lines of the upgrade command, and the stderr
    lines of a command whose stderr capture has any byte. *)
Definition echoed_lines (du : Z) (upd upg : proc) : list string :=
  ((if du =? 0 then [] else line (chld_out upd) ++ err_lines upd)
   ++ filter marker (line (chld_out upg)) ++ err_lines upg)%list.


(** [max_state] returns one of its arguments. *)
Definition selective (f : Z -> Z -> Z) : Prop :=
  forall a b, f a b = a \/ f a b = b.

(** Two worlds in which the steps of the run from [m] see the same. *)
Definition indistinguishable (w w' : world) (m : machine) : Prop :=
  (do_update m <> 0 -> same_signal (update_answer w m) (update_answer w' m))
  /\ same_signal (upgrade_answer w m) (upgrade_answer w' m)
  /\ count_marked (line (chld_out (upgrade_answer w m)))
     = count_marked (line (chld_out (upgrade_answer w' m))).

(** *** Sample command lines *)

(** An [atoi] that reads every string as 30. *)
Definition sample_atoi : string -> Z := fun _ => 30.

(** Format strings to stand for those of utils.h. *)
Definition fmt_c : string := "Copyright (c) %s (%s)" ++ nl.
Definition fmt_h : string := " -h, --help" ++ nl.
Definition fmt_t : string := " -t, --timeout=INTEGER (default: %d)" ++ nl.

(** [-v -t 5 -u -t 30 -d]. *)
Definition sample_options : list getopt_result :=
  [(uchar "v", None); (uchar "t", Some "5"); (uchar "u", None);
   (uchar "t", Some "30"); (uchar "d", None)].

(** The update command exits 2 with a line on stdout, the upgrade command
    exits 0 with one marked line. *)
Definition noisy_world : world :=
  fun k cmd =>
    if (k =? 0)%nat
    then mk_proc 2 (mk_output 4 ["Hit"]) (mk_output 0 [])
    else mk_proc 0 (mk_output 9 ["Inst foo"]) (mk_output 0 []).

(** As [noisy_world], with another non-zero status and other text from the
    update command. *)
Definition noisy_world' : world :=
  fun k cmd =>
    if (k =? 0)%nat
    then mk_proc 100 (mk_output 8 ["Get"; "Ign"]) (mk_output 0 [])
    else mk_proc 0 (mk_output 9 ["Inst bar"]) (mk_output 0 []).

(** ** The loops *)

Lemma push_nil (m : machine) : push [] m = m.
Proof. destruct m; unfold push; simpl. now rewrite app_nil_r. Qed.

Lemma push_push (e1 e2 : list event) (m : machine) :
  push e2 (push e1 m) = push (e1 ++ e2) m.
Proof. unfold push; simpl. now rewrite app_assoc. Qed.

Lemma emit_push (e : event) (m : machine) : emit e m = (tt, push [e] m).
Proof. reflexivity. Qed.

Lemma echo_lines_eq (ls : list string) :
  forall m, echo_lines ls m = (tt, push (map Echo ls) m).
Proof.
  induction ls as [|l ls IH]; intro m; simpl.
  - now rewrite push_nil.
  - unfold bind. rewrite emit_push, IH, push_push. reflexivity.
Qed.

Lemma when_echo_lines (v : Z) (ls : list string) (m : machine) :
  when v (echo_lines ls) m = (tt, push (echoed v ls) m).
Proof.
  unfold when, echoed. destruct (v =? 0).
  - unfold ret. now rewrite push_nil.
  - apply echo_lines_eq.
Qed.

Lemma scan_inst_eq (ls : list string) :
  forall pc m,
    scan_inst ls pc m =
    (pc + Z.of_nat (List.length (filter is_inst ls)),
     push (echoed (verbose m) (filter is_inst ls)) m).
Proof.
  induction ls as [|l ls IH]; intros pc m; cbn [scan_inst filter].
  - unfold ret, echoed. cbn [List.length Z.of_nat]. rewrite Z.add_0_r.
    destruct (verbose m =? 0); now rewrite push_nil.
  - change (strncmp l "Inst" 4 =? 0) with (is_inst l).
    destruct (is_inst l) eqn:E.
    + unfold bind, gets, when. cbn [List.length].
      destruct (verbose m =? 0) eqn:V.
      * unfold ret. rewrite IH. unfold echoed. rewrite V.
        f_equal. lia.
      * rewrite emit_push, IH, push_push.
        replace (verbose (push [Echo l] m)) with (verbose m) by reflexivity.
        unfold echoed. rewrite V. cbn [map app].
        f_equal. lia.
    + apply IH.
Qed.

(** ** The filter against the specification's reading *)

Lemma uchar_eqb (a b : ascii) : (uchar a =? uchar b) = Ascii.eqb a b.
Proof.
  destruct (Ascii.eqb_spec a b) as [->|Hne].
  - apply Z.eqb_refl.
  - apply Z.eqb_neq. intro H. apply Hne.
    unfold uchar in H. apply N2Z.inj in H.
    rewrite <- (ascii_N_embedding a), <- (ascii_N_embedding b). now rewrite H.
Qed.

(** Comparing against a NUL-free literal over its whole length is a test of
    the leading characters. *)
Lemma strncmp_literal (p : string) :
  no_nul p = true ->
  forall l, (strncmp l p (String.length p) =? 0)
            = String.eqb (substring 0 (String.length p) l) p.
Proof.
  induction p as [|a p IH]; intros Hp l.
  - destruct l; reflexivity.
  - cbn [no_nul] in Hp. apply andb_true_iff in Hp as [Ha Hp].
    apply negb_true_iff in Ha.
    cbn [String.length strncmp]. destruct l as [|c l].
    + cbn [head_byte substring String.eqb].
      rewrite (Z.eqb_sym 0 (uchar a)), Ha.
      apply Z.eqb_neq in Ha. apply Z.eqb_neq. lia.
    + cbn [head_byte advance substring String.eqb].
      rewrite uchar_eqb. destruct (Ascii.eqb_spec c a) as [->|Hne].
      * rewrite Ha. cbn [andb]. apply IH, Hp.
      * cbn [andb]. apply Z.eqb_neq. intro H.
        assert (E : (uchar c =? uchar a) = true) by (apply Z.eqb_eq; lia).
        rewrite uchar_eqb in E. apply Ascii.eqb_eq in E. contradiction.
Qed.

Lemma is_inst_marker (l : string) : is_inst l = marker l.
Proof. exact (strncmp_literal "Inst" eq_refl l). Qed.

Lemma filter_is_inst (ls : list string) : filter is_inst ls = filter marker ls.
Proof. apply filter_ext. exact is_inst_marker. Qed.

(** ** The steps *)

Ltac step_tac :=
  repeat first
    [ rewrite emit_push
    | rewrite when_echo_lines
    | rewrite scan_inst_eq
    | progress cbv beta iota delta
        [bind ret gets set_stderr_warning set_exec_warning np_runcmd]
    | progress cbn [verbose do_update dist_upgrade stderr_warning exec_warning
                    timeout_interval trace push fst snd] ].

Ltac machine_eq :=
  unfold push, after_step;
  cbn [verbose do_update dist_upgrade stderr_warning exec_warning
       timeout_interval trace];
  repeat rewrite <- app_assoc; cbn [app]; repeat rewrite app_nil_r;
  reflexivity.

Lemma run_update_eq (w : world) (m : machine) :
  run_update w m =
  let r := w (spawned (trace m)) APTGET_UPDATE in
  (step_state r, after_step r (update_events (verbose m) r) m).
Proof.
  cbv zeta.
  unfold run_update, step_state, exec_state, update_events, err_events,
    after_step.
  step_tac.
  destruct (status (w (spawned (trace m)) APTGET_UPDATE) =? 0);
    destruct (buflen (chld_err (w (spawned (trace m)) APTGET_UPDATE)) =? 0)%N;
    step_tac; unfold push; machine_eq.
Qed.

Lemma run_upgrade_eq (w : world) (m : machine) :
  run_upgrade w m =
  let r := w (spawned (trace m)) (upgrade_cmd (dist_upgrade m)) in
  ((step_state r, Z.of_nat (List.length (filter is_inst (line (chld_out r))))),
   after_step r (upgrade_events (verbose m) (dist_upgrade m) r) m).
Proof.
  cbv zeta.
  unfold run_upgrade, step_state, exec_state, upgrade_events, err_events,
    upgrade_cmd, after_step.
  step_tac.
  destruct (dist_upgrade m =? 0); step_tac;
  match goal with |- context [status ?r =? 0] =>
    destruct (status r =? 0); destruct (buflen (chld_err r) =? 0)%N
  end; step_tac; machine_eq.
Qed.

Lemma spawned_app (a b : list event) :
  spawned (a ++ b) = (spawned a + spawned b)%nat.
Proof. unfold spawned. now rewrite filter_app, length_app. Qed.

Lemma spawned_echoed (v : Z) (ls : list string) : spawned (echoed v ls) = 0%nat.
Proof.
  unfold echoed. destruct (v =? 0); [reflexivity|].
  induction ls as [|l ls IH]; [reflexivity | exact IH].
Qed.

Lemma spawned_err_events (v : Z) (r : proc) : spawned (err_events v r) = 0%nat.
Proof.
  unfold err_events. destruct (buflen (chld_err r) =? 0)%N;
    [reflexivity | apply spawned_echoed].
Qed.

Lemma spawned_update_events (v : Z) (r : proc) :
  spawned (update_events v r) = 1%nat.
Proof.
  unfold update_events. rewrite !spawned_app, spawned_echoed, spawned_err_events.
  destruct (status r =? 0); reflexivity.
Qed.

Lemma spawned_before_upgrade (w : world) (m : machine) :
  spawned (trace (before_upgrade w m)) =
  if do_update m =? 0 then spawned (trace m) else S (spawned (trace m)).
Proof.
  unfold before_upgrade. cbv zeta. destruct (do_update m =? 0).
  - cbn [trace push]. rewrite spawned_app. cbn. lia.
  - cbn [trace push after_step].
    rewrite !spawned_app, spawned_update_events. cbn. lia.
Qed.

(** ** The run *)

Lemma main_eq (w : world) (m : machine) :
  main w m =
  let upd := update_answer w m in
  let upg := upgrade_answer w m in
  let result0 := if do_update m =? 0 then STATE_UNKNOWN else step_state upd in
  let n := Z.of_nat (List.length (filter is_inst (line (chld_out upg)))) in
  let m2 := after_step upg (upgrade_events (verbose m) (dist_upgrade m) upg)
                       (before_upgrade w m) in
  let result := final_state result0 (step_state upg) n in
  (result,
   push (stderr_notice (stderr_warning m2)
         ++ [Report result n (truthy (dist_upgrade m))
                    (truthy (stderr_warning m2)) (truthy (exec_warning m2))])
        m2).
Proof.
  cbv zeta. unfold upgrade_answer. rewrite <- (spawned_before_upgrade w m).
  assert (V : verbose (before_upgrade w m) = verbose m)
    by (unfold before_upgrade; cbv zeta; now destruct (do_update m =? 0)).
  assert (D : dist_upgrade (before_upgrade w m) = dist_upgrade m)
    by (unfold before_upgrade; cbv zeta; now destruct (do_update m =? 0)).
  assert (E : (if do_update m =? 0 then ret STATE_UNKNOWN else run_update w)
                (push [Alarm (timeout_interval m)] m) =
              (if do_update m =? 0 then STATE_UNKNOWN
               else step_state (update_answer w m), before_upgrade w m)).
  { unfold before_upgrade, update_answer. cbv zeta.
    destruct (do_update m =? 0); [reflexivity|].
    rewrite run_update_eq. cbv zeta. cbn [trace push verbose].
    rewrite spawned_app. cbn [spawned filter is_run List.length].
    now rewrite Nat.add_0_r. }
  unfold main. unfold bind at 1. unfold gets at 1.
  unfold bind at 1. rewrite emit_push.
  unfold bind at 1. unfold gets at 1. cbn [do_update push].
  unfold bind at 1. rewrite E.
  unfold bind at 1. rewrite run_upgrade_eq. cbv zeta. rewrite V, D.
  set (upg := w (spawned (trace (before_upgrade w m)))
                (upgrade_cmd (dist_upgrade m))).
  set (m2 := after_step upg _ _).
  assert (D2 : dist_upgrade m2 = dist_upgrade m) by (subst m2; exact D).
  unfold final_state, stderr_notice, when. step_tac.
  destruct (stderr_warning m2 =? 0); step_tac; rewrite D2;
    unfold push; cbn [verbose do_update dist_upgrade stderr_warning exec_warning
                      timeout_interval trace];
    repeat rewrite <- app_assoc; reflexivity.
Qed.

Lemma verdict_of_report (tr : list event) (r n : Z) (d sw ew : bool) :
  verdict_of (tr ++ [Report r n d sw ew]) = Some (mk_verdict r n sw ew).
Proof. unfold verdict_of. now rewrite rev_unit. Qed.

Lemma main_state (w : world) (m : machine) :
  fst (main w m) =
  final_state (if do_update m =? 0 then STATE_UNKNOWN
               else step_state (update_answer w m))
              (step_state (upgrade_answer w m))
              (count_marked (line (chld_out (upgrade_answer w m)))).
Proof.
  rewrite main_eq. cbv zeta. cbn [fst]. unfold count_marked.
  now rewrite filter_is_inst.
Qed.

Lemma main_stderr_warning (w : world) (m : machine) :
  stderr_warning (snd (main w m)) =
  if (buflen (chld_err (upgrade_answer w m)) =? 0)%N
  then if do_update m =? 0 then stderr_warning m
       else if (buflen (chld_err (update_answer w m)) =? 0)%N
            then stderr_warning m else 1
  else 1.
Proof.
  rewrite main_eq. cbv zeta. cbn [snd push stderr_warning after_step].
  unfold before_upgrade. cbv zeta. fold (update_answer w m).
  now destruct (do_update m =? 0).
Qed.

Lemma main_exec_warning (w : world) (m : machine) :
  exec_warning (snd (main w m)) =
  if status (upgrade_answer w m) =? 0
  then if do_update m =? 0 then exec_warning m
       else if status (update_answer w m) =? 0 then exec_warning m else 1
  else 1.
Proof.
  rewrite main_eq. cbv zeta. cbn [snd push exec_warning after_step].
  unfold before_upgrade. cbv zeta. fold (update_answer w m).
  now destruct (do_update m =? 0).
Qed.

Lemma main_trace (w : world) (m : machine) :
  trace (snd (main w m)) =
  (trace m
   ++ [Alarm (timeout_interval m)]
   ++ (if do_update m =? 0 then []
       else update_events (verbose m) (update_answer w m))
   ++ upgrade_events (verbose m) (dist_upgrade m) (upgrade_answer w m)
   ++ stderr_notice (stderr_warning (snd (main w m)))
   ++ [Report (fst (main w m))
              (count_marked (line (chld_out (upgrade_answer w m))))
              (truthy (dist_upgrade m))
              (truthy (stderr_warning (snd (main w m))))
              (truthy (exec_warning (snd (main w m))))])%list.
Proof.
  unfold count_marked. rewrite <- filter_is_inst.
  rewrite main_eq. cbv zeta.
  cbn [fst snd push trace stderr_warning exec_warning after_step].
  unfold before_upgrade. cbv zeta. fold (update_answer w m).
  destruct (do_update m =? 0);
    cbn [push trace stderr_warning exec_warning after_step];
    repeat rewrite <- app_assoc; reflexivity.
Qed.

Lemma run_eq (w : world) (m : machine) :
  run w m =
  Some (mk_verdict (fst (main w m))
                   (count_marked (line (chld_out (upgrade_answer w m))))
                   (truthy (stderr_warning (snd (main w m))))
                   (truthy (exec_warning (snd (main w m))))).
Proof.
  unfold run. rewrite main_trace. rewrite !app_assoc.
  apply verdict_of_report.
Qed.

(** ** What is spawned, and what is echoed *)

Lemma commands_app (a b : list event) :
  commands (a ++ b) = (commands a ++ commands b)%list.
Proof.
  induction a as [|e a IH]; [reflexivity|].
  destruct e; cbn [app commands]; now rewrite IH.
Qed.

Lemma commands_echoed (v : Z) (ls : list string) : commands (echoed v ls) = [].
Proof.
  unfold echoed. destruct (v =? 0); [reflexivity|].
  induction ls as [|l ls IH]; [reflexivity | exact IH].
Qed.

Lemma commands_err_events (v : Z) (r : proc) : commands (err_events v r) = [].
Proof.
  unfold err_events. destruct (buflen (chld_err r) =? 0)%N;
    [reflexivity | apply commands_echoed].
Qed.

Lemma commands_update_events (v : Z) (r : proc) :
  commands (update_events v r) = [APTGET_UPDATE].
Proof.
  unfold update_events.
  rewrite !commands_app, commands_echoed, commands_err_events.
  destruct (status r =? 0); reflexivity.
Qed.

Lemma commands_upgrade_events (v dd : Z) (r : proc) :
  commands (upgrade_events v dd r) = [upgrade_cmd dd].
Proof.
  unfold upgrade_events.
  rewrite !commands_app, commands_echoed, commands_err_events.
  destruct (status r =? 0); reflexivity.
Qed.

Lemma commands_stderr_notice (sw : Z) : commands (stderr_notice sw) = [].
Proof. unfold stderr_notice. now destruct (sw =? 0). Qed.

Lemma main_commands (w : world) (m : machine) :
  commands (trace (snd (main w m))) =
  (commands (trace m)
   ++ (if do_update m =? 0 then [] else [APTGET_UPDATE])
   ++ [upgrade_cmd (dist_upgrade m)])%list.
Proof.
  rewrite main_trace, !commands_app, commands_upgrade_events,
    commands_stderr_notice.
  destruct (do_update m =? 0); rewrite ?commands_update_events; reflexivity.
Qed.

Lemma quiet_app (a b : list event) : quiet (a ++ b) = (quiet a ++ quiet b)%list.
Proof. apply filter_app. Qed.

Lemma quiet_echoed (v : Z) (ls : list string) : quiet (echoed v ls) = [].
Proof.
  unfold echoed. destruct (v =? 0); [reflexivity|].
  induction ls as [|l ls IH]; [reflexivity | exact IH].
Qed.

Lemma quiet_err_events (v : Z) (r : proc) : quiet (err_events v r) = [].
Proof.
  unfold err_events. destruct (buflen (chld_err r) =? 0)%N;
    [reflexivity | apply quiet_echoed].
Qed.

Lemma quiet_update_events (v : Z) (r : proc) :
  quiet (update_events v r) = update_events 0 r.
Proof.
  unfold update_events.
  rewrite !quiet_app, quiet_echoed, quiet_err_events.
  unfold err_events, echoed. cbn [Z.eqb].
  destruct (status r =? 0); destruct (buflen (chld_err r) =? 0)%N; reflexivity.
Qed.

Lemma quiet_upgrade_events (v dd : Z) (r : proc) :
  quiet (upgrade_events v dd r) = upgrade_events 0 dd r.
Proof.
  unfold upgrade_events.
  rewrite !quiet_app, quiet_echoed, quiet_err_events.
  unfold err_events, echoed. cbn [Z.eqb].
  destruct (status r =? 0); destruct (buflen (chld_err r) =? 0)%N; reflexivity.
Qed.

Lemma quiet_stderr_notice (sw : Z) : quiet (stderr_notice sw) = stderr_notice sw.
Proof. unfold stderr_notice. now destruct (sw =? 0). Qed.

Lemma quiet_main_boot (w : world) (v du dd t : Z) :
  quiet (trace (snd (main w (boot v du dd t))))
  = trace (snd (main w (boot 0 du dd t))).
Proof.
  rewrite !main_trace, !main_state, !main_stderr_warning, !main_exec_warning.
  unfold upgrade_answer, update_answer.
  cbn [boot trace verbose do_update dist_upgrade stderr_warning exec_warning
       timeout_interval].
  rewrite !quiet_app, quiet_upgrade_events, quiet_stderr_notice.
  destruct (du =? 0); rewrite ?quiet_update_events; reflexivity.
Qed.

(** The alarm is armed once, before anything else happens, and neither
    step arms it again. *)
Lemma alarm_armed_once_at_start (w : world) (v du dd t : Z) :
  exists rest,
    trace (snd (main w (boot v du dd t))) = Alarm t :: rest
    /\ filter is_alarm rest = [].
Proof.
  eexists. split; [rewrite main_trace; reflexivity|].
  assert (E : forall x ls, filter is_alarm (echoed x ls) = []).
  { intros x ls. unfold echoed. destruct (x =? 0); [reflexivity|].
    induction ls as [|l ls IH]; [reflexivity | exact IH]. }
  assert (R : forall x r, filter is_alarm (err_events x r) = []).
  { intros x r. unfold err_events.
    destruct (buflen (chld_err r) =? 0)%N; [reflexivity | apply E]. }
  rewrite !filter_app. unfold update_events, upgrade_events, stderr_notice.
  cbn [boot do_update verbose dist_upgrade].
  destruct (du =? 0); rewrite ?filter_app, ?E, ?R;
    repeat match goal with |- context [if ?c then _ else _] =>
      destruct c end; reflexivity.
Qed.

(** ** The classifier *)

(** C4: the count the filter loop of [run_upgrade] arrives at, hence the
    count stored through [pkgcount] and the one in the verdict, is the
    number of captured stdout lines whose first four characters are exactly
    [Inst]; the test is case-sensitive and anchored at the first character,
    and every other line is passed over.  The lines [Inst foo 1.0],
    [Conf foo], [Inst bar 2.0] and the empty line count 2. *)
Theorem inst_lines_are_counted :
  (forall ls pc m, fst (scan_inst ls pc m) = pc + count_marked ls)
  /\ (forall w m,
        snd (fst (run_upgrade w m))
        = count_marked
            (line (chld_out (w (spawned (trace m))
                               (upgrade_cmd (dist_upgrade m))))))
  /\ (forall w m,
        exists v, run w m = Some v
                  /\ updateCount v
                     = count_marked (line (chld_out (upgrade_answer w m))))
  /\ (forall m, fst (scan_inst sample_stdout 0 m) = 2)
  /\ (forall m, fst (scan_inst [" Inst foo"; "inst foo"; "INST foo"; "Ins";
                                "Conf foo"; ""] 0 m) = 0)
  /\ (forall m,
        let after := run_upgrade sample_world m in
        fst after = (0, 2)
        /\ stderr_warning (snd after) = stderr_warning m
        /\ exec_warning (snd after) = exec_warning m).
Proof.
  assert (S : forall ls pc m, fst (scan_inst ls pc m) = pc + count_marked ls).
  { intros. rewrite scan_inst_eq. cbn [fst]. unfold count_marked.
    now rewrite filter_is_inst. }
  split; [exact S|]. split; [|split; [|split; [|split]]].
  - intros. rewrite run_upgrade_eq. cbv zeta. cbn [fst snd].
    unfold count_marked. now rewrite filter_is_inst.
  - intros. eexists. split; [apply run_eq|]. reflexivity.
  - intro m. rewrite S. reflexivity.
  - intro m. rewrite S. reflexivity.
  - intro m. cbv zeta. rewrite run_upgrade_eq. cbv zeta.
    rewrite filter_is_inst. repeat split.
Qed.

(** ** The sequence of invocations *)

(** C8: the commands a run spawns are, in this order, the update command
    once if [do_update] was selected and not at all otherwise, then one
    upgrade command; the sequence does not depend on what the commands
    answer, so nothing is spawned again after a failure, and no command line
    occurs twice.  Each call of [np_runcmd] has returned before the next
    event of the trace.  The update step leaves the count of the upgrade
    step alone: the update count of the verdict is the number of marked
    lines on the stdout of the upgrade command. *)
Theorem update_once_then_one_upgrade (w : world) (v du dd t : Z) :
  let cmds := commands (trace (snd (main w (boot v du dd t)))) in
  cmds = ((if du =? 0 then [] else [APTGET_UPDATE]) ++ [upgrade_cmd dd])%list
  /\ NoDup cmds
  /\ (List.length cmds <= 2)%nat
  /\ (In APTGET_UPDATE cmds <-> du <> 0)
  /\ (forall w', commands (trace (snd (main w' (boot v du dd t)))) = cmds)
  /\ snd (fst (run_upgrade w (snd (run_update w (boot v du dd t)))))
     = count_marked (line (chld_out (w 1%nat (upgrade_cmd dd))))
  /\ exists r,
       run w (boot v du dd t) = Some r
       /\ updateCount r
          = count_marked
              (line (chld_out (w (if du =? 0 then 0%nat else 1%nat)
                                 (upgrade_cmd dd)))).
Proof.
  cbv zeta. rewrite main_commands. cbn [boot trace do_update dist_upgrade app].
  assert (U : APTGET_UPDATE <> upgrade_cmd dd)
    by (unfold upgrade_cmd; destruct (dd =? 0); discriminate).
  split; [reflexivity|]. split; [|split; [|split; [|split; [|split]]]].
  - destruct (du =? 0); cbn [app].
    + constructor; [intros []|constructor].
    + constructor; [intros [E|[]]; now apply U|].
      constructor; [intros []|constructor].
  - destruct (du =? 0); cbn; lia.
  - destruct (Z.eqb_spec du 0) as [->|Hd]; cbn [app In]; split.
    + intros [E|[]]. now elim U.
    + intro H. now elim H.
    + intros _. exact Hd.
    + intros _. now left.
  - intro w'. rewrite main_commands. reflexivity.
  - rewrite run_upgrade_eq. cbv zeta. cbn [fst snd].
    rewrite run_update_eq. cbv zeta.
    cbn [snd after_step trace dist_upgrade boot app].
    rewrite spawned_update_events. unfold count_marked.
    now rewrite filter_is_inst.
  - eexists. split; [apply run_eq|]. cbn [updateCount].
    unfold upgrade_answer. cbn [boot trace do_update dist_upgrade spawned
                                filter List.length].
    reflexivity.
Qed.

(** ** Verbosity *)

(** ** The warning flags *)

(** C10: both warning flags are 0 when the run starts; each of [run_update],
    [run_upgrade] and [main] leaves each flag as it was or at 1, so a flag
    that is set stays set.  At the end of a run [stderr_warning] is set if
    and only if the update step ran and its stderr capture was not empty, or
    the stderr capture of the upgrade step was not empty; [exec_warning] is
    set if and only if the update step ran and its child exited non-zero, or
    the child of the upgrade step exited non-zero.  The verdict reports
    these two flags. *)
Theorem warning_flags_only_rise :
  (forall w m,
     let m' := snd (run_update w m) in
     (stderr_warning m' = stderr_warning m \/ stderr_warning m' = 1)
     /\ (exec_warning m' = exec_warning m \/ exec_warning m' = 1))
  /\ (forall w m,
        let m' := snd (run_upgrade w m) in
        (stderr_warning m' = stderr_warning m \/ stderr_warning m' = 1)
        /\ (exec_warning m' = exec_warning m \/ exec_warning m' = 1))
  /\ (forall w m,
        let m' := snd (main w m) in
        (stderr_warning m' = stderr_warning m \/ stderr_warning m' = 1)
        /\ (exec_warning m' = exec_warning m \/ exec_warning m' = 1))
  /\ (forall w v du dd t,
        let m := boot v du dd t in
        let upd := w 0%nat APTGET_UPDATE in
        let upg := w (if du =? 0 then 0%nat else 1%nat) (upgrade_cmd dd) in
        stderr_warning m = 0 /\ exec_warning m = 0
        /\ exists r,
             run w m = Some r
             /\ stderrWarning r = truthy (stderr_warning (snd (main w m)))
             /\ execWarning r = truthy (exec_warning (snd (main w m)))
             /\ (stderrWarning r = true
                 <-> (du <> 0 /\ (0 < buflen (chld_err upd))%N)
                     \/ (0 < buflen (chld_err upg))%N)
             /\ (execWarning r = true
                 <-> (du <> 0 /\ status upd <> 0) \/ status upg <> 0)).
Proof.
  split; [|split; [|split]].
  - intros w m. cbv zeta. rewrite run_update_eq. cbv zeta.
    cbn [snd after_step stderr_warning exec_warning].
    split; match goal with |- context [if ?c then _ else _] =>
      destruct c end; auto.
  - intros w m. cbv zeta. rewrite run_upgrade_eq. cbv zeta.
    cbn [snd after_step stderr_warning exec_warning].
    split; match goal with |- context [if ?c then _ else _] =>
      destruct c end; auto.
  - intros w m. cbv zeta. rewrite main_stderr_warning, main_exec_warning.
    split; repeat match goal with |- context [if ?c then _ else _] =>
      destruct c end; auto.
  - intros w v du dd t. cbv zeta.
    split; [reflexivity|]. split; [reflexivity|].
    eexists. split; [apply run_eq|].
    cbn [stderrWarning execWarning].
    split; [reflexivity|]. split; [reflexivity|].
    rewrite main_stderr_warning, main_exec_warning.
    unfold upgrade_answer, update_answer.
    cbn [boot trace do_update dist_upgrade stderr_warning exec_warning spawned
         filter List.length].
    set (upd := w 0%nat APTGET_UPDATE).
    set (upg := w (if du =? 0 then 0%nat else 1%nat) (upgrade_cmd dd)).
    split.
    + destruct (N.eqb_spec (buflen (chld_err upg)) 0) as [G|G];
        destruct (Z.eqb_spec du 0) as [D|D];
        try destruct (N.eqb_spec (buflen (chld_err upd)) 0) as [P|P];
        cbn; split; intro H; try discriminate; try reflexivity;
        try (right; lia); try (left; split; [assumption | lia]);
        destruct H as [[H1 H2]|H]; try lia; contradiction.
    + destruct (Z.eqb_spec (status upg) 0) as [G|G];
        destruct (Z.eqb_spec du 0) as [D|D];
        try destruct (Z.eqb_spec (status upd) 0) as [P|P];
        cbn; split; intro H; try discriminate; try reflexivity;
        try (right; assumption); try (left; split; assumption);
        destruct H as [[H1 H2]|H]; contradiction.
Qed.

(** ** The command line *)

Lemma opt_codes :
  uchar "h" = 104 /\ uchar "V" = 86 /\ uchar "v" = 118
  /\ uchar "t" = 116 /\ uchar "d" = 100 /\ uchar "u" = 117.
Proof. repeat split. Qed.

Ltac opt_cases c :=
  destruct (Z.eqb_spec c (-1)); [subst c|];
  [|destruct (Z.eqb_spec c 1); [subst c|];
    [|destruct (Z.eqb_spec c 104); [subst c|];
      [|destruct (Z.eqb_spec c 86); [subst c|];
        [|destruct (Z.eqb_spec c 118); [subst c|];
          [|destruct (Z.eqb_spec c 116); [subst c|];
            [|destruct (Z.eqb_spec c 100); [subst c|];
              [|destruct (Z.eqb_spec c 117); [subst c|]]]]]]]].

Lemma int_wrap_small (x : Z) : INT_MIN <= x <= INT_MAX -> int_wrap x = x.
Proof.
  unfold INT_MIN, INT_MAX, int_wrap. intro H.
  rewrite Z.mod_small; lia.
Qed.

Lemma int_wrap_range (x : Z) : INT_MIN <= int_wrap x <= INT_MAX.
Proof.
  unfold INT_MIN, INT_MAX, int_wrap.
  pose proof (Z.mod_pos_bound (x + 2147483648) 4294967296). lia.
Qed.

Lemma int_wrap_add_l (a b : Z) : int_wrap (int_wrap a + b) = int_wrap (a + b).
Proof.
  unfold int_wrap.
  replace ((a + 2147483648) mod 4294967296 - 2147483648 + b + 2147483648)
    with ((a + 2147483648) mod 4294967296 + b) by lia.
  rewrite Zplus_mod_idemp_l. f_equal. f_equal. lia.
Qed.

Lemma counted_step (v : Z) (n : nat) :
  counted (int_wrap (v + 1)) (Z.of_nat n) = counted v (Z.of_nat (S n)).
Proof.
  unfold counted.
  destruct (Z.eqb_spec (Z.of_nat (S n)) 0) as [E|_]; [lia|].
  destruct (Z.eqb_spec (Z.of_nat n) 0) as [E|_].
  - f_equal. lia.
  - rewrite int_wrap_add_l. f_equal. lia.
Qed.

(** The loop of [process_arguments] in closed form. *)
Lemma process_arguments_eq (rs : list getopt_result) :
  forall m,
    fst (process_arguments rs m)
    = end_at (stop_of rs) (snd (process_arguments rs m))
    /\ verbose (snd (process_arguments rs m))
       = counted (verbose m) (count_of "v" (processed rs))
    /\ do_update (snd (process_arguments rs m))
       = (if has "u" (processed rs) then 1 else do_update m)
    /\ dist_upgrade (snd (process_arguments rs m))
       = (if has "d" (processed rs) then 1 else dist_upgrade m)
    /\ timeout_interval (snd (process_arguments rs m))
       = match last_timeout (processed rs) with
         | Some s => atoi s
         | None => timeout_interval m
         end
    /\ stderr_warning (snd (process_arguments rs m)) = stderr_warning m
    /\ exec_warning (snd (process_arguments rs m)) = exec_warning m
    /\ trace (snd (process_arguments rs m)) = trace m.
Proof.
  destruct opt_codes as (Hh & HV & Hv & Ht & Hd & Hu).
  induction rs as [|[c a] rs IH]; intro m.
  - cbn. unfold count_of, counted. cbn. repeat split; lia.
  - cbn [process_arguments processed stop_of]. unfold settable, EOF.
    cbn [fst snd]. rewrite Hh, HV, Hv, Ht, Hd, Hu.
    opt_cases c; cbn [Z.eqb Pos.eqb orb andb];
      try destruct a as [s|]; cbn [processed];
      unfold print_help, bind, gets, set_verbose, set_timeout_interval,
        set_dist_upgrade, set_do_update, ret;
      try match goal with |- context [process_arguments rs ?m'] =>
            destruct (IH m') as (E & V & U & D & T & SW & EW & TR);
            rewrite E, V, U, D, T, SW, EW, TR
          end;
      unfold count_of, has, end_at;
      cbn [fst snd verbose do_update dist_upgrade stderr_warning exec_warning
           timeout_interval trace filter existsb last_timeout List.length];
      rewrite ?Hh, ?HV, ?Hv, ?Ht, ?Hd, ?Hu;
      repeat match goal with
             | H : ?c <> ?k |- context [?c =? ?k] =>
                 rewrite (proj2 (Z.eqb_neq c k) H)
             end;
      cbn [Z.eqb Pos.eqb orb andb filter existsb List.length];
      repeat split; try reflexivity; try apply counted_step; try lia;
      try (match goal with |- context [if ?b then _ else _] =>
             destruct b end; reflexivity);
      try (destruct (last_timeout (processed rs)); reflexivity).
Qed.

Lemma machine_ext (a b : machine) :
  verbose a = verbose b -> do_update a = do_update b ->
  dist_upgrade a = dist_upgrade b -> stderr_warning a = stderr_warning b ->
  exec_warning a = exec_warning b -> timeout_interval a = timeout_interval b ->
  trace a = trace b -> a = b.
Proof. destruct a, b; cbn; intros; subst; reflexivity. Qed.

Lemma processed_app_stop (pre : list getopt_result) (stop : getopt_result)
      (rest : list getopt_result) :
  settable stop = false ->
  processed (pre ++ stop :: rest) = processed pre
  /\ stop_of (pre ++ stop :: rest)
     = match stop_of pre with Some r => Some r | None => Some stop end.
Proof.
  intro H. induction pre as [|r pre IH]; cbn [app processed stop_of].
  - now rewrite H.
  - destruct (settable r); [|split; reflexivity].
    destruct IH as [IH1 IH2]. now rewrite IH1, IH2.
Qed.

Lemma processed_all (rs : list getopt_result) :
  forallb settable rs = true -> processed rs = rs /\ stop_of rs = None.
Proof.
  induction rs as [|r rs IH]; cbn [forallb processed stop_of]; [now split|].
  intro H. apply andb_true_iff in H as [Hr Hrs]. rewrite Hr.
  destruct (IH Hrs) as [E1 E2]. now rewrite E1, E2.
Qed.

Lemma processed_app_all (pre rest : list getopt_result) :
  forallb settable pre = true ->
  processed (pre ++ rest) = (pre ++ processed rest)%list
  /\ stop_of (pre ++ rest) = stop_of rest.
Proof.
  induction pre as [|r pre IH]; cbn [forallb app processed stop_of];
    [now split|].
  intro H. apply andb_true_iff in H as [Hr Hpre]. rewrite Hr.
  destruct (IH Hpre) as [E1 E2]. now rewrite E1, E2.
Qed.

(** X1: the loop of [process_arguments] ends at the first result of
    [getopt_long] that is not one of the options v, d, u or t with an
    argument; whatever [getopt_long] would have given after it has no
    effect on how the function ends or on any variable. *)
Theorem options_after_the_stop_are_ignored
        (pre : list getopt_result) (stop : getopt_result)
        (rest : list getopt_result) (m : machine) :
  settable stop = false ->
  process_arguments (pre ++ stop :: rest) m
  = process_arguments (pre ++ [stop]) m.
Proof.
  intro H.
  destruct (processed_app_stop pre stop rest H) as [P S].
  destruct (processed_app_stop pre stop [] H) as [P' S'].
  destruct (process_arguments_eq (pre ++ stop :: rest) m)
    as (E & V & U & D & T & SW & EW & TR).
  destruct (process_arguments_eq (pre ++ [stop]) m)
    as (E' & V' & U' & D' & T' & SW' & EW' & TR').
  rewrite (surjective_pairing (process_arguments (pre ++ stop :: rest) m)).
  rewrite (surjective_pairing (process_arguments (pre ++ [stop]) m)).
  rewrite P in V, U, D, T. rewrite P' in V', U', D', T'.
  assert (M : snd (process_arguments (pre ++ stop :: rest) m)
              = snd (process_arguments (pre ++ [stop]) m))
    by (apply machine_ext; congruence).
  f_equal.
  - now rewrite E, E', S, S', M.
  - exact M.
Qed.

(** X2: [process_arguments] adds to [verbose], as an [int], the number of v
    options it went through; a v that comes after the result at which the
    loop ends is not counted.  As long as the sum does not pass INT_MAX the
    addition is exact and [verbose] is not lowered; past INT_MAX the [int]
    wraps around. *)
Theorem verbose_counts_the_v_options (rs : list getopt_result) (m : machine) :
  INT_MIN <= verbose m <= INT_MAX ->
  let n := count_of "v" (processed rs) in
  let v' := verbose (snd (process_arguments rs m)) in
  v' = int_wrap (verbose m + n)
  /\ INT_MIN <= v' <= INT_MAX
  /\ (verbose m + n <= INT_MAX -> v' = verbose m + n /\ verbose m <= v')
  /\ (forallb settable rs = true -> n = count_of "v" rs).
Proof.
  intro R. cbv zeta.
  destruct (process_arguments_eq rs m) as (_ & V & _).
  assert (N : 0 <= count_of "v" (processed rs)) by (unfold count_of; lia).
  assert (W : verbose (snd (process_arguments rs m))
              = int_wrap (verbose m + count_of "v" (processed rs))).
  { rewrite V. unfold counted.
    destruct (Z.eqb_spec (count_of "v" (processed rs)) 0) as [E|_];
      [|reflexivity].
    rewrite E, Z.add_0_r. symmetry. now apply int_wrap_small. }
  split; [exact W|]. split; [rewrite W; apply int_wrap_range|]. split.
  - intro B. rewrite W, int_wrap_small; lia.
  - intro H. destruct (processed_all rs H) as [P _]. now rewrite P.
Qed.

(** X3: [process_arguments] sets [do_update] to 1 when it went through a u
    option and leaves it alone otherwise, and likewise [dist_upgrade] with
    d; giving an option twice is giving it once, and no option clears
    either variable. *)
Theorem switches_are_set_never_cleared (rs : list getopt_result) (m : machine) :
  do_update (snd (process_arguments rs m))
  = (if has "u" (processed rs) then 1 else do_update m)
  /\ dist_upgrade (snd (process_arguments rs m))
     = (if has "d" (processed rs) then 1 else dist_upgrade m)
  /\ (do_update m <> 0 -> do_update (snd (process_arguments rs m)) <> 0)
  /\ (dist_upgrade m <> 0 -> dist_upgrade (snd (process_arguments rs m)) <> 0).
Proof.
  destruct (process_arguments_eq rs m) as (_ & _ & U & D & _).
  rewrite U, D. repeat split.
  - destruct (has "u" (processed rs)); [discriminate | trivial].
  - destruct (has "d" (processed rs)); [discriminate | trivial].
Qed.

Lemma last_timeout_app (pre rest : list getopt_result) :
  last_timeout (pre ++ rest)
  = match last_timeout rest with
    | Some s => Some s
    | None => last_timeout pre
    end.
Proof.
  induction pre as [|[c a] pre IH]; cbn [app last_timeout].
  - now destruct (last_timeout rest).
  - rewrite IH. now destruct (last_timeout rest).
Qed.

Lemma last_timeout_none (rs : list getopt_result) :
  has "t" rs = false -> last_timeout rs = None.
Proof.
  induction rs as [|[c a] rs IH]; [reflexivity|].
  unfold has. cbn [existsb fst last_timeout]. intro H.
  apply orb_false_iff in H as [Hc Hrs]. rewrite (IH Hrs). now rewrite Hc.
Qed.

(** X4: of several t options the last one decides: [timeout_interval] ends
    as [atoi] of the argument of the last t that was gone through, and what
    earlier ones had set is overwritten. *)
Theorem last_timeout_option_wins
        (pre rest : list getopt_result) (s : string) (m : machine) :
  forallb settable pre = true ->
  forallb settable rest = true ->
  has "t" rest = false ->
  timeout_interval
    (snd (process_arguments (pre ++ (uchar "t", Some s) :: rest) m))
  = atoi s.
Proof.
  intros Hpre Hrest Ht.
  destruct (process_arguments_eq (pre ++ (uchar "t", Some s) :: rest) m)
    as (_ & _ & _ & _ & T & _).
  rewrite T.
  assert (A : forallb settable (pre ++ (uchar "t", Some s) :: rest) = true).
  { rewrite forallb_app. cbn [forallb]. now rewrite Hpre, Hrest. }
  destruct (processed_all _ A) as [P _]. rewrite P, last_timeout_app.
  cbn [last_timeout]. rewrite (last_timeout_none rest Ht).
  now rewrite Z.eqb_refl.
Qed.

(** X5: however it ends, [process_arguments] changes neither warning flag
    and adds nothing to the trace of the run: it spawns no command, arms no
    alarm and writes nothing to stderr.  To stdout it writes only when the
    loop ends at h, the text of [print_help] with [timeout_interval] as the
    options before h left it, or at V, through [print_revision]; what
    [usage_va] writes is its own. *)
Theorem parsing_leaves_flags_and_trace (rs : list getopt_result) (m : machine) :
  let m' := snd (process_arguments rs m) in
  stderr_warning m' = stderr_warning m
  /\ exec_warning m' = exec_warning m
  /\ trace m' = trace m
  /\ printed_by (fst (process_arguments rs m))
     = match stop_of rs with
       | Some (c, _) =>
           if c =? uchar "h" then fst (print_help m')
           else if c =? uchar "V" then [Print_revision progname revision]
           else []
       | None => []
       end.
Proof.
  cbv zeta.
  destruct (process_arguments_eq rs m) as (E & _ & _ & _ & _ & SW & EW & TR).
  rewrite SW, EW, TR, E. repeat split.
  unfold end_at. destruct (stop_of rs) as [[c a]|]; [|reflexivity].
  destruct opt_codes as (Hh & HV & _). rewrite Hh, HV.
  destruct (Z.eqb_spec c (-1)) as [->|]; [reflexivity|].
  destruct (Z.eqb_spec c 1) as [->|]; [reflexivity|]. cbn [orb].
  destruct (c =? 104); [reflexivity|]. destruct (c =? 86); [reflexivity|].
  now destruct (c =? uchar "t").
Qed.

(** ** The program from its first line *)

Lemma program_eq (rs : list getopt_result) (sig_err : bool) (w : world)
      (m : machine) :
  program rs sig_err w m =
  let m1 := snd (process_arguments rs m) in
  match end_at (stop_of rs) m1 with
  | Returned r =>
      if r =? ERROR then (Usage "Could not parse arguments" None, m1)
      else if sig_err then (Usage "Cannot catch SIGALRM" None, m1)
      else (Finished (fst (main w m1)), snd (main w m1))
  | Help_exit _ code => (Finished code, m1)
  | Version_exit _ code => (Finished code, m1)
  | Usage_va fmt arg => (Usage fmt arg, m1)
  | Atoi_null => (Undefined, m1)
  end.
Proof.
  cbv zeta. unfold program, bind.
  destruct (process_arguments_eq rs m) as (E & _).
  destruct (process_arguments rs m) as [p m1]. cbn [fst snd] in *. subst p.
  destruct (end_at (stop_of rs) m1); try reflexivity.
  destruct (r =? ERROR); [reflexivity|]. destruct sig_err; [reflexivity|].
  unfold ret. now destruct (main w m1).
Qed.

(** X6: once [process_arguments] reaches h or V the program exits with
    STATE_OK: no alarm is armed, no command is spawned and no warning flag
    is touched, whatever follows on the command line, whatever [signal]
    would have returned and whatever the commands would have answered. *)
Theorem help_and_version_exit_before_anything_runs
        (pre : list getopt_result) (c : Z) (a : option string)
        (rest : list getopt_result) (sig_err : bool) (w : world) (m : machine) :
  forallb settable pre = true ->
  c = uchar "h" \/ c = uchar "V" ->
  let done := program (pre ++ (c, a) :: rest) sig_err w m in
  fst done = Finished STATE_OK
  /\ trace (snd done) = trace m
  /\ stderr_warning (snd done) = stderr_warning m
  /\ exec_warning (snd done) = exec_warning m.
Proof.
  intros Hpre Hc. cbv zeta. rewrite program_eq. cbv zeta.
  destruct (processed_app_all pre ((c, a) :: rest) Hpre) as [_ S]. rewrite S.
  destruct (process_arguments_eq (pre ++ (c, a) :: rest) m)
    as (_ & _ & _ & _ & _ & SW & EW & TR).
  assert (N : settable (c, a) = false)
    by (destruct Hc as [-> | ->]; reflexivity).
  cbn [stop_of]. rewrite N.
  destruct Hc as [-> | ->].
  - match goal with |- context [end_at (Some (uchar "h", a)) ?x] =>
      change (end_at (Some (uchar "h", a)) x)
        with (Help_exit (fst (print_help x)) STATE_OK) end.
    cbn [fst snd]. now rewrite SW, EW, TR.
  - match goal with |- context [end_at (Some (uchar "V", a)) ?x] =>
      change (end_at (Some (uchar "V", a)) x)
        with (Version_exit [Print_revision progname revision] STATE_OK) end.
    cbn [fst snd]. now rewrite SW, EW, TR.
Qed.

(** X7: [process_arguments] never returns anything but OK, so as long as
    OK and ERROR differ the program never calls [usage_va] with
    "Could not parse arguments": an option that cannot be parsed is reported
    from inside [process_arguments] as an unknown argument. *)
Theorem parse_error_branch_is_never_taken
        (rs : list getopt_result) (sig_err : bool) (w : world) (m : machine)
        (a : option string) :
  OK <> ERROR ->
  fst (program rs sig_err w m) <> Usage "Could not parse arguments" a
  /\ (forall r, fst (process_arguments rs m) = Returned r -> r = OK).
Proof.
  intro H. apply Z.eqb_neq in H. split.
  - rewrite program_eq. cbv zeta. unfold end_at.
    destruct (stop_of rs) as [[c o]|].
    + repeat match goal with |- context [if ?b then _ else _] =>
        destruct b end; cbn [fst]; try rewrite H; try discriminate;
        destruct sig_err; discriminate.
    + rewrite H. destruct sig_err; discriminate.
  - intros r E. destruct (process_arguments_eq rs m) as (F & _).
    rewrite F in E. unfold end_at in E.
    destruct (stop_of rs) as [[c o]|];
      repeat match type of E with context [if ?b then _ else _] =>
        destruct b end; congruence.
Qed.

(** X8: when every option is one of v, d, u and t with an argument and
    [signal] succeeds, the program is the run of [main] from the variables
    the options set ([verbose] being the number of v options as an [int]),
    and it ends with the state that run returns: the
    update command is spawned exactly when there was a u, and the
    dist-upgrade command line is used exactly when there was a d. *)
Theorem options_decide_what_is_spawned
        (rs : list getopt_result) (w : world) (t0 : Z) :
  OK <> ERROR ->
  forallb settable rs = true ->
  let m1 := boot (int_wrap (count_of "v" rs))
                 (if has "u" rs then 1 else 0)
                 (if has "d" rs then 1 else 0)
                 (match last_timeout rs with
                  | Some s => atoi s
                  | None => t0
                  end) in
  program rs false w (start t0) = (Finished (fst (main w m1)), snd (main w m1))
  /\ commands (trace (snd (program rs false w (start t0))))
     = ((if has "u" rs then [APTGET_UPDATE] else [])
        ++ [if has "d" rs then APTGET_DISTUPGRADE else APTGET_UPGRADE])%list.
Proof.
  intros H Hrs. apply Z.eqb_neq in H. cbv zeta.
  destruct (processed_all rs Hrs) as [P S].
  destruct (process_arguments_eq rs (start t0))
    as (_ & V & U & D & T & SW & EW & TR).
  rewrite P in V, U, D, T.
  assert (E : snd (process_arguments rs (start t0))
              = boot (int_wrap (count_of "v" rs))
                     (if has "u" rs then 1 else 0)
                     (if has "d" rs then 1 else 0)
                     (match last_timeout rs with
                      | Some s => atoi s
                      | None => t0
                      end)).
  { apply machine_ext; cbn [boot start verbose do_update dist_upgrade
                            stderr_warning exec_warning timeout_interval trace]
                         in *; try assumption.
    rewrite V. unfold counted.
    destruct (Z.eqb_spec (count_of "v" rs) 0) as [Z0|_];
      [now rewrite Z0 | reflexivity]. }
  assert (G : program rs false w (start t0)
              = (Finished (fst (main w (snd (process_arguments rs (start t0))))),
                 snd (main w (snd (process_arguments rs (start t0)))))).
  { rewrite program_eq. cbv zeta. rewrite S. cbn [end_at]. now rewrite H. }
  rewrite G, E. split; [reflexivity|].
  cbn [snd]. rewrite main_commands.
  cbn [boot trace do_update dist_upgrade commands app]. unfold upgrade_cmd.
  destruct (has "u" rs); destruct (has "d" rs); reflexivity.
Qed.

(** ** What a run writes *)

Lemma diagnostics_app (a b : list event) :
  diagnostics (a ++ b) = (diagnostics a ++ diagnostics b)%list.
Proof.
  induction a as [|e a IH]; [reflexivity|].
  destruct e; cbn [app diagnostics]; now rewrite IH.
Qed.

Lemma diagnostics_echoed (v : Z) (ls : list string) :
  diagnostics (echoed v ls) = [].
Proof.
  unfold echoed. destruct (v =? 0); [reflexivity|].
  induction ls as [|l ls IH]; [reflexivity | exact IH].
Qed.

Lemma diagnostics_err_events (v : Z) (r : proc) :
  diagnostics (err_events v r) = [].
Proof.
  unfold err_events. destruct (buflen (chld_err r) =? 0)%N;
    [reflexivity | apply diagnostics_echoed].
Qed.

Lemma echoes_app (a b : list event) :
  echoes (a ++ b) = (echoes a ++ echoes b)%list.
Proof.
  induction a as [|e a IH]; [reflexivity|].
  destruct e; cbn [app echoes]; now rewrite IH.
Qed.

Lemma echoes_echoed (v : Z) (ls : list string) :
  echoes (echoed v ls) = if v =? 0 then [] else ls.
Proof.
  unfold echoed. destruct (v =? 0); [reflexivity|].
  induction ls as [|l ls IH]; [reflexivity|]. cbn [map echoes]. now rewrite IH.
Qed.

Lemma echoes_err_events (v : Z) (r : proc) :
  echoes (err_events v r) = if v =? 0 then [] else err_lines r.
Proof.
  unfold err_events, err_lines. destruct (buflen (chld_err r) =? 0)%N.
  - now destruct (v =? 0).
  - apply echoes_echoed.
Qed.

(** C9, amended: two runs over the same answers of the children that differ
    only in [verbose] return the same state, leave the same warning flags
    and report the same verdict; they spawn the same commands and write the
    same diagnostics, and differ in nothing but the captured lines echoed
    with [printf].  A run with [verbose] at 0 echoes none; any other run
    echoes all stdout lines of the update command, the marked stdout lines
    of the upgrade command, and the stderr lines of each command whose
    stderr capture has any byte. *)
Theorem verbosity_does_not_change_verdict (w : world) (v v' du dd t : Z) :
  let one := main w (boot v du dd t) in
  let other := main w (boot v' du dd t) in
  let upd := w 0%nat APTGET_UPDATE in
  let upg := w (if du =? 0 then 0%nat else 1%nat) (upgrade_cmd dd) in
  run w (boot v du dd t) = run w (boot v' du dd t)
  /\ fst one = fst other
  /\ stderr_warning (snd one) = stderr_warning (snd other)
  /\ exec_warning (snd one) = exec_warning (snd other)
  /\ commands (trace (snd one)) = commands (trace (snd other))
  /\ quiet (trace (snd one)) = quiet (trace (snd other))
  /\ quiet (trace (snd (main w (boot 0 du dd t))))
     = trace (snd (main w (boot 0 du dd t)))
  /\ echoes (trace (snd one))
     = (if v =? 0 then [] else echoed_lines du upd upg)
  /\ echoes (trace (snd other))
     = (if v' =? 0 then [] else echoed_lines du upd upg).
Proof.
  assert (Ech : forall x,
             echoes (trace (snd (main w (boot x du dd t))))
             = if x =? 0 then []
               else echoed_lines du (w 0%nat APTGET_UPDATE)
                      (w (if du =? 0 then 0%nat else 1%nat) (upgrade_cmd dd))).
  { intro x. unfold echoed_lines. rewrite main_trace.
    unfold upgrade_answer, update_answer.
    cbn [boot trace verbose do_update dist_upgrade stderr_warning exec_warning
         timeout_interval spawned filter List.length].
    rewrite !echoes_app. unfold update_events, upgrade_events, stderr_notice.
    rewrite <- filter_is_inst.
    destruct (du =? 0);
      rewrite ?echoes_app, ?echoes_echoed, ?echoes_err_events;
      cbn [echoes app];
      repeat match goal with |- context [if ?c then _ else _] =>
        destruct c end; cbn [echoes app]; rewrite ?app_nil_r; reflexivity. }
  cbv zeta. rewrite (Ech v), (Ech v').
  rewrite !quiet_main_boot, !run_eq, !main_commands, !main_state,
    !main_stderr_warning, !main_exec_warning.
  repeat split.
Qed.

(** X9: what a run writes to stderr does not depend on [verbose]: the
    failure message of the update step if that step ran and its child
    exited non-zero, then the failure message of the upgrade step if its
    child exited non-zero, then the two-part notice about output on stderr
    if any step that ran captured a byte on stderr; nothing else. *)
Theorem diagnostics_of_a_run (w : world) (v du dd t : Z) :
  let upd := w 0%nat APTGET_UPDATE in
  let upg := w (if du =? 0 then 0%nat else 1%nat) (upgrade_cmd dd) in
  diagnostics (trace (snd (main w (boot v du dd t))))
  = ((if (du =? 0) || (status upd =? 0) then [] else [update_failure])
     ++ (if status upg =? 0 then [] else [upgrade_failure])
     ++ (if (buflen (chld_err upg) =? 0)%N
            && ((du =? 0) || (buflen (chld_err upd) =? 0)%N)
         then [] else stderr_notice_text))%list.
Proof.
  cbv zeta. rewrite main_trace, main_stderr_warning.
  unfold upgrade_answer, update_answer.
  cbn [boot trace verbose do_update dist_upgrade stderr_warning exec_warning
       timeout_interval spawned filter List.length].
  rewrite !diagnostics_app. unfold update_events, upgrade_events.
  destruct (du =? 0);
    rewrite ?diagnostics_app, ?diagnostics_echoed, ?diagnostics_err_events;
    cbn [orb diagnostics app];
    repeat match goal with
           | |- context [status ?r =? 0] => destruct (status r =? 0)
           | |- context [(buflen ?o =? 0)%N] => destruct (buflen o =? 0)%N
           end; reflexivity.
Qed.

(** X10: when the dist-upgrade variant is selected and its child exits
    non-zero, the command that was spawned is the dist-upgrade command line
    but the message written to stderr quotes the plain upgrade command
    line, which is a different one. *)
Theorem dist_upgrade_failure_quotes_upgrade (w : world) (m : machine) :
  dist_upgrade m <> 0 ->
  status (w (spawned (trace m)) APTGET_DISTUPGRADE) <> 0 ->
  APTGET_UPGRADE <> APTGET_DISTUPGRADE
  /\ exists rest,
       trace (snd (run_upgrade w m))
       = (trace m
          ++ Runcmd APTGET_DISTUPGRADE
          :: Diag ("'" ++ APTGET_UPGRADE ++ "' exited with non-zero status."
                       ++ nl ++ "Run again with -v for more info." ++ nl)
          :: rest)%list.
Proof.
  intros Hd Hs. apply Z.eqb_neq in Hd. apply Z.eqb_neq in Hs.
  split; [discriminate|].
  rewrite run_upgrade_eq. cbv zeta. cbn [snd after_step trace].
  unfold upgrade_events, upgrade_cmd. rewrite Hd, Hs.
  eexists. cbn [app]. reflexivity.
Qed.

(** X11: with [verbose] at 0 a run echoes nothing.  Otherwise it echoes, in
    this order: if the update step ran, every stdout line of the update
    command and, if its stderr capture has any byte, every stderr line;
    then the marked stdout lines of the upgrade command in their order and,
    if its stderr capture has any byte, every stderr line. *)
Theorem echoes_of_a_run (w : world) (v du dd t : Z) :
  let upd := w 0%nat APTGET_UPDATE in
  let upg := w (if du =? 0 then 0%nat else 1%nat) (upgrade_cmd dd) in
  echoes (trace (snd (main w (boot v du dd t))))
  = if v =? 0 then []
    else ((if du =? 0 then [] else line (chld_out upd) ++ err_lines upd)
          ++ filter marker (line (chld_out upg)) ++ err_lines upg)%list.
Proof.
  cbv zeta. rewrite main_trace.
  unfold upgrade_answer, update_answer.
  cbn [boot trace verbose do_update dist_upgrade stderr_warning exec_warning
       timeout_interval spawned filter List.length].
  rewrite !echoes_app. unfold update_events, upgrade_events, stderr_notice.
  rewrite <- filter_is_inst.
  destruct (du =? 0);
    rewrite ?echoes_app, ?echoes_echoed, ?echoes_err_events;
    cbn [echoes app];
    repeat match goal with |- context [if ?c then _ else _] =>
      destruct c end; cbn [echoes app]; rewrite ?app_nil_r; reflexivity.
Qed.

(** ** What a run returns *)

(** X12: whenever [max_state] returns one of its two arguments, the state
    [main] returns is OK, WARNING or UNKNOWN and never CRITICAL, whatever
    the children answer: a non-zero exit status is replaced by UNKNOWN and
    its value is not passed on. *)
Theorem main_never_returns_critical (w : world) (m : machine) :
  selective max_state ->
  (fst (main w m) = STATE_OK \/ fst (main w m) = STATE_WARNING
   \/ fst (main w m) = STATE_UNKNOWN)
  /\ fst (main w m) <> STATE_CRITICAL.
Proof.
  intro S.
  assert (St : forall r, step_state r = STATE_OK \/ step_state r = STATE_WARNING
                         \/ step_state r = STATE_UNKNOWN).
  { intro r. unfold step_state, exec_state.
    destruct (Z.eqb_spec (status r) 0) as [E|E]; [rewrite E|];
      destruct (buflen (chld_err r) =? 0)%N; auto;
      match goal with |- context [max_state ?a ?b] =>
        destruct (S a b) as [G|G]; rewrite G end; auto. }
  assert (A : fst (main w m) = STATE_OK \/ fst (main w m) = STATE_WARNING
              \/ fst (main w m) = STATE_UNKNOWN).
  { rewrite main_state. unfold final_state.
    destruct (St (update_answer w m)) as [U|[U|U]];
      destruct (St (upgrade_answer w m)) as [G|[G|G]]; rewrite ?U, G;
      destruct (do_update m =? 0); destruct (_ >? 0);
      repeat match goal with |- context [max_state ?a ?b] =>
        match a with context [max_state] => fail 1 | _ => idtac end;
        destruct (S a b) as [X|X]; rewrite X; clear X end; auto. }
  split; [exact A|].
  destruct A as [A|[A|A]]; rewrite A; discriminate.
Qed.


Lemma step_state_signal (r r' : proc) :
  same_signal r r' -> step_state r = step_state r'.
Proof.
  intros [S B]. unfold step_state, exec_state. rewrite <- S, <- B.
  destruct (Z.eqb_spec (status r) 0) as [E|_]; [|reflexivity].
  symmetry in S. apply Z.eqb_eq in S. now rewrite E, S.
Qed.

(** X13: the state [main] returns, the warning flags it leaves and the
    verdict it reports depend on the answers of the children only through
    three things per step: whether the exit status is 0, whether the stderr
    capture has any byte, and, for the upgrade step, how many stdout lines
    are marked.  The value of a non-zero status, the text on stderr and
    everything the update command writes to stdout make no difference. *)
Theorem verdict_depends_on_signals_only (w w' : world) (m : machine) :
  indistinguishable w w' m ->
  fst (main w m) = fst (main w' m)
  /\ stderr_warning (snd (main w m)) = stderr_warning (snd (main w' m))
  /\ exec_warning (snd (main w m)) = exec_warning (snd (main w' m))
  /\ run w m = run w' m.
Proof.
  intros (U & G & C).
  assert (S : fst (main w m) = fst (main w' m)).
  { rewrite !main_state, C, (step_state_signal _ _ G).
    destruct (Z.eqb_spec (do_update m) 0) as [_|D]; [reflexivity|].
    now rewrite (step_state_signal _ _ (U D)). }
  assert (SW : stderr_warning (snd (main w m))
               = stderr_warning (snd (main w' m))).
  { rewrite !main_stderr_warning. destruct G as [_ G]. rewrite G.
    destruct (Z.eqb_spec (do_update m) 0) as [_|D]; [reflexivity|].
    destruct (U D) as [_ B]. now rewrite B. }
  assert (EW : exec_warning (snd (main w m))
               = exec_warning (snd (main w' m))).
  { rewrite !main_exec_warning. destruct G as [G _]. rewrite G.
    destruct (Z.eqb_spec (do_update m) 0) as [_|D]; [reflexivity|].
    destruct (U D) as [B _]. now rewrite B. }
  repeat split; trivial.
  now rewrite !run_eq, S, SW, EW, C.
Qed.

(** X14: the number of packages [run_upgrade] stores through [pkgcount] is
    at least 0 and at most the number of captured stdout lines; it is 0
    when nothing was captured. *)
Theorem package_count_is_bounded_by_lines (w : world) (m : machine) :
  let out := chld_out (w (spawned (trace m)) (upgrade_cmd (dist_upgrade m))) in
  0 <= snd (fst (run_upgrade w m)) <= Z.of_nat (lines out)
  /\ (line out = [] -> snd (fst (run_upgrade w m)) = 0).
Proof.
  cbv zeta. rewrite run_upgrade_eq. cbv zeta. cbn [fst snd]. unfold lines.
  split.
  - pose proof (filter_length_le is_inst
      (line (chld_out (w (spawned (trace m)) (upgrade_cmd (dist_upgrade m)))))).
    lia.
  - intro E. now rewrite E.
Qed.

(** X15: the filter loop of [run_upgrade] runs over lines one after the
    other: going through a capture in two parts, the second part from the
    counter and the machine the first part left, is going through it at
    once. *)
Theorem scan_inst_app (a b : list string) (pc : Z) (m : machine) :
  scan_inst (a ++ b) pc m
  = scan_inst b (fst (scan_inst a pc m)) (snd (scan_inst a pc m)).
Proof.
  rewrite !scan_inst_eq. cbn [fst snd].
  replace (verbose (push (echoed (verbose m) (filter is_inst a)) m))
    with (verbose m) by reflexivity.
  rewrite push_push, filter_app, length_app. f_equal.
  - lia.
  - f_equal. unfold echoed. destruct (verbose m =? 0); [reflexivity|].
    now rewrite map_app.
Qed.

(** X16: [main] writes its status line exactly once and last: what it adds
    to the trace ends with one report, which carries the state [main]
    returns and the two warning flags as [main] leaves them, and there is
    no other report before it. *)
Theorem one_status_line_written_last (w : world) (m : machine) :
  exists before n,
    trace (snd (main w m))
    = (trace m ++ before
       ++ [Report (fst (main w m)) n (truthy (dist_upgrade m))
                  (truthy (stderr_warning (snd (main w m))))
                  (truthy (exec_warning (snd (main w m))))])%list
    /\ filter is_report before = [].
Proof.
  assert (E : forall x ls, filter is_report (echoed x ls) = []).
  { intros x ls. unfold echoed. destruct (x =? 0); [reflexivity|].
    induction ls as [|l ls IH]; [reflexivity | exact IH]. }
  assert (R : forall x r, filter is_report (err_events x r) = []).
  { intros x r. unfold err_events.
    destruct (buflen (chld_err r) =? 0)%N; [reflexivity | apply E]. }
  exists ([Alarm (timeout_interval m)]
          ++ (if do_update m =? 0 then []
              else update_events (verbose m) (update_answer w m))
          ++ upgrade_events (verbose m) (dist_upgrade m) (upgrade_answer w m)
          ++ stderr_notice (stderr_warning (snd (main w m))))%list.
  exists (count_marked (line (chld_out (upgrade_answer w m)))).
  split.
  - rewrite main_trace at 1. repeat rewrite <- app_assoc. reflexivity.
  - rewrite !filter_app. unfold update_events, upgrade_events, stderr_notice.
    rewrite !filter_app, !E, !R.
    repeat match goal with |- context [if ?c then _ else _] =>
      destruct c end; rewrite ?filter_app, ?E, ?R; reflexivity.
Qed.

End Program.

(** * The program linked with the specification's [max_state] *)

Lemma spec_max_state_max (a b : Z) : spec_max_state a b = Z.max a b.
Proof. unfold spec_max_state. destruct (Z.ltb_spec a b); lia. Qed.

Lemma step_state_cases (r : proc) :
  step_state spec_max_state r = STATE_OK
  \/ step_state spec_max_state r = STATE_WARNING
  \/ step_state spec_max_state r = STATE_UNKNOWN.
Proof.
  unfold step_state, exec_state, spec_max_state, STATE_OK, STATE_WARNING,
    STATE_UNKNOWN.
  destruct (status r =? 0) eqn:E; [apply Z.eqb_eq in E; rewrite E|];
    destruct (buflen (chld_err r) =? 0)%N; cbn; auto.
Qed.

(** ** The severity-combining operation *)

(** C2: the combining operation returns the greater of its two arguments
    under the order OK(0) < WARNING(1) < CRITICAL(2) < UNKNOWN(3): the
    result is one of the arguments and at least both.  It is therefore
    commutative, associative and idempotent, it never lowers the running
    value, and combining OK with WARNING gives WARNING, WARNING with UNKNOWN
    gives UNKNOWN, UNKNOWN with CRITICAL gives UNKNOWN. *)
Theorem max_state_is_the_greater :
  (STATE_OK < STATE_WARNING /\ STATE_WARNING < STATE_CRITICAL
   /\ STATE_CRITICAL < STATE_UNKNOWN)
  /\ (forall a b, (spec_max_state a b = a \/ spec_max_state a b = b)
                  /\ a <= spec_max_state a b /\ b <= spec_max_state a b)
  /\ (forall a b, spec_max_state a b = spec_max_state b a)
  /\ (forall a b c, spec_max_state a (spec_max_state b c)
                    = spec_max_state (spec_max_state a b) c)
  /\ (forall a, spec_max_state a a = a)
  /\ spec_max_state STATE_OK STATE_WARNING = STATE_WARNING
  /\ spec_max_state STATE_WARNING STATE_UNKNOWN = STATE_UNKNOWN
  /\ spec_max_state STATE_UNKNOWN STATE_CRITICAL = STATE_UNKNOWN.
Proof.
  assert (G : forall a b, spec_max_state a b = Z.max a b).
  { intros a b. unfold spec_max_state. destruct (Z.ltb_spec a b); lia. }
  repeat split; try reflexivity; intros; rewrite ?G; lia.
Qed.

(** ** Exec failure *)

(** C1: when the child of the upgrade step exits with a non-zero status,
    [main] returns UNKNOWN and leaves [exec_warning] set, and the verdict it
    reports says so, whatever was captured on stdout and stderr and whatever
    the update step did before. *)
Theorem exec_failure_forces_unknown (w : world) (m : machine) :
  status (upgrade_answer w m) <> 0 ->
  fst (main spec_max_state w m) = STATE_UNKNOWN
  /\ exec_warning (snd (main spec_max_state w m)) = 1
  /\ exists n sw,
       run spec_max_state w m = Some (mk_verdict STATE_UNKNOWN n sw true).
Proof.
  intro H. apply Z.eqb_neq in H.
  assert (S : fst (main spec_max_state w m) = STATE_UNKNOWN).
  { rewrite main_state. unfold final_state.
    assert (U : step_state spec_max_state (upgrade_answer w m) = STATE_UNKNOWN).
    { unfold step_state, exec_state. rewrite H.
      destruct (buflen (chld_err (upgrade_answer w m)) =? 0)%N; reflexivity. }
    rewrite U.
    assert (R : spec_max_state
                  (if do_update m =? 0 then STATE_UNKNOWN
                   else step_state spec_max_state (update_answer w m))
                  STATE_UNKNOWN = STATE_UNKNOWN).
    { destruct (do_update m =? 0); [reflexivity|].
      destruct (step_state_cases (update_answer w m)) as [E|[E|E]];
        rewrite E; reflexivity. }
    rewrite R. now destruct (_ >? 0). }
  assert (E : exec_warning (snd (main spec_max_state w m)) = 1)
    by (rewrite main_exec_warning; now rewrite H).
  repeat split; trivial.
  eexists; eexists. rewrite run_eq, S, E. reflexivity.
Qed.

Lemma exec_failure_forces_unknown_witness :
  fst (main spec_max_state failing_world (boot 0 1 0 10)) = STATE_UNKNOWN
  /\ exec_warning (snd (main spec_max_state failing_world (boot 0 1 0 10))) = 1
  /\ exists n sw,
       run spec_max_state failing_world (boot 0 1 0 10)
       = Some (mk_verdict STATE_UNKNOWN n sw true).
Proof.
  apply (exec_failure_forces_unknown failing_world (boot 0 1 0 10)).
  vm_compute. lia.
Defined.

(** ** Pending updates *)

(** C3: every run produces a verdict; when its update count is positive its
    severity is at least WARNING, whatever the exit statuses and stderr
    captures were, and when the count is zero its severity is at least OK.
    The severity of the verdict is what [main] returns. *)
Theorem updates_raise_to_warning (w : world) (m : machine) :
  exists v,
    run spec_max_state w m = Some v
    /\ severity v = fst (main spec_max_state w m)
    /\ (0 < updateCount v -> STATE_WARNING <= severity v)
    /\ (updateCount v = 0 -> STATE_OK <= severity v).
Proof.
  eexists. split; [apply run_eq|]. cbn [severity updateCount].
  split; [reflexivity|].
  rewrite main_state. unfold final_state.
  split; intro H.
  - apply Z.gtb_lt in H. rewrite H. rewrite spec_max_state_max. lia.
  - rewrite H. cbn. rewrite spec_max_state_max. lia.
Qed.

(** ** Output on stderr *)

(** C5: each of the two steps assigns 1 to [stderr_warning] exactly when the
    stderr capture of its child has a byte length above zero, and leaves the
    flag alone otherwise; so from a cleared flag the flag is set afterwards
    if and only if the capture is not empty, whatever it holds (one newline
    is enough).  Whenever the capture is not empty the state the step
    returns is at least WARNING. *)
Theorem stderr_output_sets_warning (w : world) (m : machine) :
  let upd := w (spawned (trace m)) APTGET_UPDATE in
  let upg := w (spawned (trace m)) (upgrade_cmd (dist_upgrade m)) in
  let after_update := run_update spec_max_state w m in
  let after_upgrade := run_upgrade spec_max_state w m in
  (stderr_warning (snd after_update)
   = if (0 <? buflen (chld_err upd))%N then 1 else stderr_warning m)
  /\ (stderr_warning (snd after_upgrade)
      = if (0 <? buflen (chld_err upg))%N then 1 else stderr_warning m)
  /\ (stderr_warning m = 0 ->
      (truthy (stderr_warning (snd after_update)) = true
       <-> (0 < buflen (chld_err upd))%N)
      /\ (truthy (stderr_warning (snd after_upgrade)) = true
          <-> (0 < buflen (chld_err upg))%N))
  /\ ((0 < buflen (chld_err upd))%N -> STATE_WARNING <= fst after_update)
  /\ ((0 < buflen (chld_err upg))%N -> STATE_WARNING <= fst (fst after_upgrade))
  /\ (chld_err upg = blank_line ->
      stderr_warning (snd after_upgrade) = 1
      /\ STATE_WARNING <= fst (fst after_upgrade)).
Proof.
  cbv zeta. rewrite run_update_eq, run_upgrade_eq. cbv zeta.
  cbn [fst snd after_step stderr_warning].
  set (upd := w (spawned (trace m)) APTGET_UPDATE).
  set (upg := w (spawned (trace m)) (upgrade_cmd (dist_upgrade m))).
  assert (Z0 : forall n : N, (0 <? n)%N = negb (n =? 0)%N).
  { intro n. destruct (N.eqb_spec n 0) as [->|Hn]; [reflexivity|].
    apply N.ltb_lt. lia. }
  assert (W : forall r, (0 < buflen (chld_err r))%N ->
                        STATE_WARNING <= step_state spec_max_state r).
  { intros r Hr. unfold step_state.
    destruct (N.eqb_spec (buflen (chld_err r)) 0) as [E|_]; [lia|].
    rewrite spec_max_state_max. lia. }
  rewrite !Z0. repeat split.
  - now destruct (buflen (chld_err upd) =? 0)%N.
  - now destruct (buflen (chld_err upg) =? 0)%N.
  - destruct (N.eqb_spec (buflen (chld_err upd)) 0) as [E|E];
      rewrite ?H; cbn; intro; try lia; discriminate.
  - destruct (N.eqb_spec (buflen (chld_err upd)) 0) as [E|E];
      rewrite ?H; cbn; intro; try lia; reflexivity.
  - destruct (N.eqb_spec (buflen (chld_err upg)) 0) as [E|E];
      rewrite ?H; cbn; intro; try lia; discriminate.
  - destruct (N.eqb_spec (buflen (chld_err upg)) 0) as [E|E];
      rewrite ?H; cbn; intro; try lia; reflexivity.
  - apply W.
  - apply W.
  - rewrite H. reflexivity.
  - apply W. rewrite H. reflexivity.
Qed.

(** ** The clean run *)

(** With the order of the specification, under which UNKNOWN is the greatest
    state, the run without the update step whose upgrade child exits 0 with
    nothing on stdout and nothing on stderr reports no update and no
    warning, but UNKNOWN and not OK: [result] starts as UNKNOWN in [main]
    and is only ever combined with [max_state]. *)
Theorem clean_run_without_update_is_unknown (v dd t : Z) :
  run spec_max_state silent_world (boot v 0 dd t)
  = Some (mk_verdict STATE_UNKNOWN 0 false false)
  /\ fst (main spec_max_state silent_world (boot v 0 dd t)) = STATE_UNKNOWN
  /\ STATE_UNKNOWN <> STATE_OK.
Proof.
  assert (S : fst (main spec_max_state silent_world (boot v 0 dd t))
              = STATE_UNKNOWN)
    by (rewrite main_state; reflexivity).
  split; [|split; [exact S | discriminate]].
  rewrite run_eq, S, main_stderr_warning, main_exec_warning. reflexivity.
Qed.



(** The lines a run echoes under [verbose] are not all marked lines or
    stderr lines: the update step echoes every stdout line of its command,
    here [Hit]. *)
Lemma verbose_echoes_unmarked_update_lines :
  ~ echoes_marked_or_stderr
      (trace (snd (main spec_max_state noisy_world (boot 1 1 0 10))))
      (noisy_world 0%nat APTGET_UPDATE)
      (noisy_world 1%nat (upgrade_cmd 0)).
Proof.
  intro H. destruct (H "Hit") as [M|[E|E]].
  - vm_compute. left. reflexivity.
  - discriminate M.
  - destruct E.
  - destruct E.
Qed.

(** The same clean answers with the update step selected: there [result] is
    assigned what [run_update] returned, and the run reports OK. *)
Lemma clean_run_with_update_is_ok (v du dd t : Z) :
  du <> 0 ->
  run spec_max_state silent_world (boot v du dd t)
  = Some (mk_verdict STATE_OK 0 false false).
Proof.
  intro H. apply Z.eqb_neq in H.
  assert (S : fst (main spec_max_state silent_world (boot v du dd t))
              = STATE_OK).
  { rewrite main_state. cbn [do_update boot]. rewrite H. reflexivity. }
  rewrite run_eq, S, main_stderr_warning, main_exec_warning.
  cbn [do_update boot]. rewrite H. reflexivity.
Qed.

(** Whatever [max_state] is, as long as it maps two UNKNOWNs to UNKNOWN:
    if the run without update step whose upgrade child fails returns
    UNKNOWN, then the run without update step whose upgrade child is clean
    returns UNKNOWN as well.  The exit status 0 of the clean child and
    STATE_OK are the same number, and [main] folds both into a [result] that
    starts as UNKNOWN. *)
Lemma unknown_start_ties_clean_to_failed
      (max_state : Z -> Z -> Z) (v dd t : Z) :
  max_state STATE_UNKNOWN STATE_UNKNOWN = STATE_UNKNOWN ->
  fst (main max_state broken_world (boot v 0 dd t)) = STATE_UNKNOWN ->
  fst (main max_state silent_world (boot v 0 dd t)) = STATE_UNKNOWN.
Proof.
  intros I. rewrite !main_state.
  unfold final_state, step_state, exec_state, upgrade_answer, broken_world,
    silent_world.
  cbn [boot do_update status chld_out chld_err buflen line Z.eqb N.eqb
       count_marked filter List.length Z.of_nat Z.gtb Z.compare].
  unfold count_marked. cbn [filter List.length Z.of_nat Z.gtb Z.compare].
  rewrite I. unfold STATE_OK. intro F. now rewrite F.
Qed.

(** * Further properties of the linked program *)

(** X17: a failure of the update step counts like a failure of the upgrade
    step: when the update step runs and its child exits with a non-zero
    status, [main] returns UNKNOWN and leaves [exec_warning] set, whatever
    the upgrade step finds afterwards. *)
Theorem update_failure_forces_unknown (w : world) (m : machine) :
  do_update m <> 0 ->
  status (update_answer w m) <> 0 ->
  fst (main spec_max_state w m) = STATE_UNKNOWN
  /\ exec_warning (snd (main spec_max_state w m)) = 1.
Proof.
  intros D H. apply Z.eqb_neq in D. apply Z.eqb_neq in H. split.
  - rewrite main_state, D. unfold final_state.
    assert (U : step_state spec_max_state (update_answer w m) = STATE_UNKNOWN).
    { unfold step_state, exec_state. rewrite H.
      destruct (buflen (chld_err (update_answer w m)) =? 0)%N; reflexivity. }
    rewrite U.
    destruct (step_state_cases (upgrade_answer w m)) as [E|[E|E]];
      rewrite E; now destruct (_ >? 0).
  - rewrite main_exec_warning, D, H.
    now destruct (status (upgrade_answer w m) =? 0).
Qed.

Lemma update_failure_forces_unknown_witness :
  fst (main spec_max_state noisy_world (boot 0 1 0 10)) = STATE_UNKNOWN
  /\ exec_warning (snd (main spec_max_state noisy_world (boot 0 1 0 10))) = 1.
Proof.
  apply (update_failure_forces_unknown noisy_world (boot 0 1 0 10));
    vm_compute; lia.
Defined.

Lemma step_state_ok (r : proc) :
  step_state spec_max_state r = STATE_OK
  <-> status r = 0 /\ buflen (chld_err r) = 0%N.
Proof.
  unfold step_state, exec_state, spec_max_state, STATE_OK, STATE_WARNING,
    STATE_UNKNOWN.
  destruct (Z.eqb_spec (status r) 0) as [E|E];
    destruct (N.eqb_spec (buflen (chld_err r)) 0) as [B|B];
    try rewrite E; cbn; split; intros; try lia; try tauto; try discriminate.
Qed.

(** X18: when the update step runs, [main] returns OK exactly when both
    children exited 0, neither wrote a byte to stderr and no stdout line of
    the upgrade command is marked. *)
Theorem ok_exactly_when_everything_is_clean (w : world) (m : machine) :
  do_update m <> 0 ->
  (fst (main spec_max_state w m) = STATE_OK
   <-> status (update_answer w m) = 0
       /\ buflen (chld_err (update_answer w m)) = 0%N
       /\ status (upgrade_answer w m) = 0
       /\ buflen (chld_err (upgrade_answer w m)) = 0%N
       /\ count_marked (line (chld_out (upgrade_answer w m))) = 0).
Proof.
  intro D. apply Z.eqb_neq in D.
  rewrite main_state, D. unfold final_state.
  pose proof (step_state_ok (update_answer w m)) as SU.
  pose proof (step_state_ok (upgrade_answer w m)) as SG.
  assert (N : 0 <= count_marked (line (chld_out (upgrade_answer w m))))
    by (unfold count_marked; lia).
  destruct (step_state_cases (update_answer w m)) as [U|[U|U]];
    destruct (step_state_cases (upgrade_answer w m)) as [G|[G|G]];
    rewrite U in *; rewrite G in *;
    destruct (Z.gtb_spec (count_marked (line (chld_out (upgrade_answer w m)))) 0)
      as [P|P];
    (split;
     [ intro H; try (cbn in H; discriminate H);
       destruct (proj1 SU eq_refl); destruct (proj1 SG eq_refl);
       repeat split; trivial; lia
     | intros (a & b & c & d & e);
       try (discriminate (proj2 SU (conj a b)));
       try (discriminate (proj2 SG (conj c d)));
       try lia; reflexivity ]).
Qed.

Lemma ok_exactly_when_everything_is_clean_witness :
  fst (main spec_max_state silent_world (boot 0 1 0 10)) = STATE_OK
  <-> status (update_answer silent_world (boot 0 1 0 10)) = 0
      /\ buflen (chld_err (update_answer silent_world (boot 0 1 0 10))) = 0%N
      /\ status (upgrade_answer silent_world (boot 0 1 0 10)) = 0
      /\ buflen (chld_err (upgrade_answer silent_world (boot 0 1 0 10))) = 0%N
      /\ count_marked
           (line (chld_out (upgrade_answer silent_world (boot 0 1 0 10)))) = 0.
Proof.
  apply (ok_exactly_when_everything_is_clean silent_world (boot 0 1 0 10)).
  vm_compute. lia.
Defined.

(** * Instances *)

Lemma options_after_the_stop_are_ignored_witness :
  process_arguments sample_atoi 0 fmt_c fmt_h fmt_t
    ([(uchar "v", None)] ++ (uchar "h", None) :: [(uchar "u", None)])
    (start 10)
  = process_arguments sample_atoi 0 fmt_c fmt_h fmt_t
      ([(uchar "v", None)] ++ [(uchar "h", None)]) (start 10).
Proof.
  apply (options_after_the_stop_are_ignored sample_atoi 0 fmt_c fmt_h fmt_t
           [(uchar "v", None)] (uchar "h", None) [(uchar "u", None)]
           (start 10)).
  reflexivity.
Defined.

Lemma last_timeout_option_wins_witness :
  timeout_interval
    (snd (process_arguments sample_atoi 0 fmt_c fmt_h fmt_t
            ([(uchar "v", None); (uchar "t", Some "5"); (uchar "u", None)]
             ++ (uchar "t", Some "30") :: [(uchar "d", None)])
            (start 10)))
  = sample_atoi "30".
Proof.
  apply (last_timeout_option_wins sample_atoi 0 fmt_c fmt_h fmt_t
           [(uchar "v", None); (uchar "t", Some "5"); (uchar "u", None)]
           [(uchar "d", None)] "30" (start 10)); reflexivity.
Defined.

Lemma help_and_version_exit_before_anything_runs_witness :
  let done :=
    program spec_max_state sample_atoi 0 (-1) fmt_c fmt_h fmt_t
            ([(uchar "u", None)] ++ (uchar "h", None) :: [(uchar "d", None)])
            false noisy_world (start 10) in
  fst done = Finished STATE_OK
  /\ trace (snd done) = trace (start 10)
  /\ stderr_warning (snd done) = stderr_warning (start 10)
  /\ exec_warning (snd done) = exec_warning (start 10).
Proof.
  apply (help_and_version_exit_before_anything_runs spec_max_state
           sample_atoi 0 (-1) fmt_c fmt_h fmt_t [(uchar "u", None)] (uchar "h") None
           [(uchar "d", None)] false noisy_world (start 10)).
  - reflexivity.
  - left. reflexivity.
Defined.

Lemma parse_error_branch_is_never_taken_witness :
  fst (program spec_max_state sample_atoi 0 (-1) fmt_c fmt_h fmt_t [(63, None)] false
               noisy_world (start 10))
  <> Usage "Could not parse arguments" None
  /\ (forall r,
        fst (process_arguments sample_atoi 0 fmt_c fmt_h fmt_t [(63, None)] (start 10))
        = Returned r -> r = 0).
Proof.
  apply (parse_error_branch_is_never_taken spec_max_state sample_atoi 0 (-1) fmt_c fmt_h fmt_t
           [(63, None)] false noisy_world (start 10) None).
  lia.
Defined.

Lemma options_decide_what_is_spawned_witness :
  let m1 := boot (int_wrap (count_of "v" sample_options))
                 (if has "u" sample_options then 1 else 0)
                 (if has "d" sample_options then 1 else 0)
                 (match last_timeout sample_options with
                  | Some s => sample_atoi s
                  | None => 10
                  end) in
  program spec_max_state sample_atoi 0 (-1) fmt_c fmt_h fmt_t sample_options false noisy_world
          (start 10)
  = (Finished (fst (main spec_max_state noisy_world m1)),
     snd (main spec_max_state noisy_world m1))
  /\ commands (trace (snd (program spec_max_state sample_atoi 0 (-1) fmt_c fmt_h fmt_t
                                   sample_options false noisy_world
                                   (start 10))))
     = ((if has "u" sample_options then [APTGET_UPDATE] else [])
        ++ [if has "d" sample_options
            then APTGET_DISTUPGRADE else APTGET_UPGRADE])%list.
Proof.
  apply (options_decide_what_is_spawned spec_max_state sample_atoi 0 (-1) fmt_c fmt_h fmt_t
           sample_options noisy_world 10).
  - lia.
  - reflexivity.
Defined.

Lemma dist_upgrade_failure_quotes_upgrade_witness :
  APTGET_UPGRADE <> APTGET_DISTUPGRADE
  /\ exists rest,
       trace (snd (run_upgrade spec_max_state broken_world (boot 0 0 1 10)))
       = (trace (boot 0 0 1 10)
          ++ Runcmd APTGET_DISTUPGRADE
          :: Diag ("'" ++ APTGET_UPGRADE ++ "' exited with non-zero status."
                       ++ nl ++ "Run again with -v for more info." ++ nl)
          :: rest)%list.
Proof.
  apply (dist_upgrade_failure_quotes_upgrade spec_max_state broken_world
           (boot 0 0 1 10)); vm_compute; lia.
Defined.

Lemma main_never_returns_critical_witness :
  (fst (main spec_max_state noisy_world (boot 0 1 0 10)) = STATE_OK
   \/ fst (main spec_max_state noisy_world (boot 0 1 0 10)) = STATE_WARNING
   \/ fst (main spec_max_state noisy_world (boot 0 1 0 10)) = STATE_UNKNOWN)
  /\ fst (main spec_max_state noisy_world (boot 0 1 0 10)) <> STATE_CRITICAL.
Proof.
  apply (main_never_returns_critical spec_max_state noisy_world
           (boot 0 1 0 10)).
  intros a b. unfold spec_max_state. destruct (a <? b); [right | left];
    reflexivity.
Defined.

Lemma verdict_depends_on_signals_only_witness :
  fst (main spec_max_state noisy_world (boot 0 1 0 10))
  = fst (main spec_max_state noisy_world' (boot 0 1 0 10))
  /\ stderr_warning (snd (main spec_max_state noisy_world (boot 0 1 0 10)))
     = stderr_warning (snd (main spec_max_state noisy_world' (boot 0 1 0 10)))
  /\ exec_warning (snd (main spec_max_state noisy_world (boot 0 1 0 10)))
     = exec_warning (snd (main spec_max_state noisy_world' (boot 0 1 0 10)))
  /\ run spec_max_state noisy_world (boot 0 1 0 10)
     = run spec_max_state noisy_world' (boot 0 1 0 10).
Proof.
  apply (verdict_depends_on_signals_only spec_max_state noisy_world
           noisy_world' (boot 0 1 0 10)).
  split; [intros _; split; reflexivity|].
  split; [split; reflexivity | reflexivity].
Defined.

Lemma verbose_counts_the_v_options_witness :
  let n := count_of "v" (processed sample_options) in
  let v' := verbose (snd (process_arguments sample_atoi 0 fmt_c fmt_h fmt_t
                                            sample_options (start 10))) in
  v' = int_wrap (verbose (start 10) + n)
  /\ INT_MIN <= v' <= INT_MAX
  /\ (verbose (start 10) + n <= INT_MAX ->
      v' = verbose (start 10) + n /\ verbose (start 10) <= v')
  /\ (forallb settable sample_options = true ->
      n = count_of "v" sample_options).
Proof.
  apply (verbose_counts_the_v_options sample_atoi 0 fmt_c fmt_h fmt_t
           sample_options (start 10)).
  vm_compute. split; discriminate.
Defined.
